(** * Device storage of the Sengled local server

    A shallow embedding of [rootfs/usr/local/src/device_storage.py]
    (class [DeviceStorage]) and the properties of its status parser, device
    store and ingestion path.

    Modelling conventions.
    - Python values that [json.loads] can produce are the type [pyvalue].
      Text is a sequence of code points below 256, one [ascii] each;
      [strip] and the escapes of [json.dumps] are as Python has them on
      all of these, [upper] as Python has it on the ASCII ones.  JSON
      numbers are Python ints; float literals and code points from 256
      on are outside the model.
    - [json.loads] belongs to the Python library: it is a variable
      [json_loads] of the section, which returns the decoded value or
      raises: [JSONDecodeError] for text that is not JSON, and also
      [RecursionError] (nesting deeper than the interpreter allows) and
      [ValueError] (an integer literal over the digit limit).
    - A Python [dict] is an insertion-ordered association list over the
      hashable values [pykey], with Python's key equality; the device
      mapping [self._devices], keyed by text, is a [gmap string device_record].
    - Methods run in a state-and-exception monad [M] over [storage]: state
      changes made before an exception is raised are kept, as in Python.
      The state is the mapping, the content of [devices.json] and the log.
    - The local [device] of [update_device] is an alias of the stored
      record when the key exists: [assign] writes through to the mapping.
    - [time.time()] and the outcome of the file system are inputs of each
      call: [now] is [int(time.time() * 1000)], [fs_ok] says whether the
      write succeeds.  [cleanup_old_devices] computes with the clock as a
      float: there the reading is a binary64 [float] and the arithmetic is
      IEEE 754, as in Python.
    - The mapping does not record the insertion order of [self._devices];
      [cleanup_old_devices], which iterates over it, takes that order as
      an input. *)

From Stdlib Require Import ZArith Lia Ascii String.
From Stdlib Require Import PrimFloat SpecFloat FloatOps.
From stdpp Require Import gmap strings list fin_maps pretty.

Local Open Scope string_scope.
Local Open Scope Z_scope.

Set Warnings "-register-all".

(** ** Python values *)

(** The hashable values: what a dict key can be. *)
Inductive pykey : Type :=
| KNone
| KBool (b : bool)
| KInt (z : Z)
| KStr (s : string).

Inductive pyvalue : Type :=
| PyNone
| PyBool (b : bool)
| PyInt (z : Z)
| PyStr (s : string)
| PyList (l : list pyvalue)
| PyDict (d : list (pykey * pyvalue)).

Definition pydict : Type := list (pykey * pyvalue).

(** [bool(v)] *)
Definition truthy (v : pyvalue) : bool :=
  match v with
  | PyNone => false
  | PyBool b => b
  | PyInt z => negb (z =? 0)
  | PyStr s => negb (String.eqb s "")
  | PyList l => match l with [] => false | _ => true end
  | PyDict d => match d with [] => false | _ => true end
  end.

Definition is_none (v : pyvalue) : bool :=
  match v with PyNone => true | _ => false end.

(** A value used as a key: lists and dicts have no [__hash__]. *)
Definition as_key (v : pyvalue) : option pykey :=
  match v with
  | PyNone => Some KNone
  | PyBool b => Some (KBool b)
  | PyInt z => Some (KInt z)
  | PyStr s => Some (KStr s)
  | PyList _ | PyDict _ => None
  end.

(** [a == b] on keys: [bool] is a subclass of [int], so [True == 1]. *)
Definition key_eqb (a b : pykey) : bool :=
  match a, b with
  | KNone, KNone => true
  | KStr s, KStr t => String.eqb s t
  | KBool x, KBool y => Bool.eqb x y
  | KBool x, KInt z | KInt z, KBool x => (if x then 1 else 0) =? z
  | KInt x, KInt y => x =? y
  | _, _ => false
  end.

(** ** Text operations *)

Definition upper_char (c : ascii) : ascii :=
  let n := N_of_ascii c in
  if ((97 <=? n) && (n <=? 122))%N then ascii_of_N (n - 32) else c.

(** [s.upper()] *)
Fixpoint upper (s : string) : string :=
  match s with
  | EmptyString => EmptyString
  | String c s' => String (upper_char c) (upper s')
  end.

(** [s.split(sep)] for a one-character separator: never the empty list. *)
Fixpoint split (sep : ascii) (s : string) : list string :=
  match s with
  | EmptyString => [EmptyString]
  | String c s' =>
      if Ascii.eqb c sep then EmptyString :: split sep s'
      else match split sep s' with
           | [] => [String c EmptyString]
           | w :: ws => String c w :: ws
           end
  end.

(** [c.isspace()] on the code points below 256: TAB..CR, FS..US, the
    space, NEL (U+0085) and the no-break space (U+00A0). *)
Definition is_space (c : ascii) : bool :=
  let n := N_of_ascii c in
  ((9 <=? n) && (n <=? 13) || (28 <=? n) && (n <=? 32) || (n =? 133) || (n =? 160))%N.

Fixpoint lstrip (s : string) : string :=
  match s with
  | String c s' => if is_space c then lstrip s' else s
  | EmptyString => EmptyString
  end.

Fixpoint rstrip (s : string) : string :=
  match s with
  | EmptyString => EmptyString
  | String c s' =>
      match rstrip s' with
      | EmptyString => if is_space c then EmptyString else String c EmptyString
      | r => String c r
      end
  end.

(** [s.strip()] *)
Definition strip (s : string) : string := rstrip (lstrip s).

(** ** Dictionaries *)

(** [d.get(k)], [None] when the key is absent *)
Fixpoint dict_get (k : pykey) (d : pydict) : option pyvalue :=
  match d with
  | [] => None
  | (k', v) :: d' => if key_eqb k' k then Some v else dict_get k d'
  end.

(** [k in d] *)
Definition dict_contains (k : pykey) (d : pydict) : bool :=
  match dict_get k d with Some _ => true | None => false end.

(** [d[k] = v]: an equal key keeps its place and its key object, a new
    key goes last. *)
Fixpoint dict_set (k : pykey) (v : pyvalue) (d : pydict) : pydict :=
  match d with
  | [] => [(k, v)]
  | (k', v') :: d' =>
      if key_eqb k' k then (k', v) :: d' else (k', v') :: dict_set k v d'
  end.

(** [d.update(other)] *)
Definition dict_update (d other : pydict) : pydict :=
  fold_left (fun acc kv => dict_set kv.1 kv.2 acc) other d.

(** ** [json.dumps] with the default settings *)

Definition hex_digit (n : N) : ascii :=
  if (n <? 10)%N then ascii_of_N (48 + n) else ascii_of_N (87 + n).

(** One character of a JSON string under [ensure_ascii=True]. *)
Definition escape_char (c : ascii) : string :=
  let n := N_of_ascii c in
  if (n =? 34)%N then String "\" (String c "")
  else if (n =? 92)%N then "\\"
  else if (n =? 10)%N then "\n"
  else if (n =? 13)%N then "\r"
  else if (n =? 9)%N then "\t"
  else if (n =? 8)%N then "\b"
  else if (n =? 12)%N then "\f"
  else if ((n <? 32) || (126 <? n))%N then
    "\u00" +:+ String (hex_digit (n / 16)) (String (hex_digit (n mod 16)) "")
  else String c "".

Fixpoint escape (s : string) : string :=
  match s with
  | EmptyString => EmptyString
  | String c s' => escape_char c +:+ escape s'
  end.

Definition dquote : string := String (ascii_of_N 34) "".

Definition quote (s : string) : string := dquote +:+ escape s +:+ dquote.

Fixpoint join (sep : string) (l : list string) : string :=
  match l with
  | [] => ""
  | [x] => x
  | x :: l' => x +:+ sep +:+ join sep l'
  end.

(** A dictionary key as [json.dumps] writes it. *)
Definition dumps_key (k : pykey) : string :=
  match k with
  | KStr s => quote s
  | KBool true => quote "true"
  | KBool false => quote "false"
  | KInt z => quote (pretty z)
  | KNone => quote "null"
  end.

Fixpoint json_dumps (v : pyvalue) : string :=
  match v with
  | PyNone => "null"
  | PyBool true => "true"
  | PyBool false => "false"
  | PyInt z => pretty z
  | PyStr s => quote s
  | PyList l => "[" +:+ join ", " (map json_dumps l) +:+ "]"
  | PyDict d =>
      "{" +:+ join ", " (map (fun kv => dumps_key kv.1 +:+ ": " +:+ json_dumps kv.2) d)
      +:+ "}"
  end.

(** [len(s)], tail recursive so that it runs on long texts *)
Fixpoint str_len_from (acc : Z) (s : string) : Z :=
  match s with
  | EmptyString => acc
  | String _ s' => str_len_from (acc + 1) s'
  end.

Definition str_len (s : string) : Z := str_len_from 0 s.

(** [len(json.dumps(d).encode('utf-8'))]: the output of [json.dumps] is
    ASCII, one byte per character. *)
Definition json_size (d : pydict) : Z := str_len (json_dumps (PyDict d)).

(** ** The store *)

(** One device record, the dict under [self._devices[mac]]. *)
Record device_record : Type := Device {
  device_mac : string;
  first_seen : Z;
  last_seen : Z;
  capabilities : list string;
  attributes : pydict
}.

Definition set_last_seen (t : Z) (d : device_record) : device_record :=
  Device (device_mac d) (first_seen d) t (capabilities d) (attributes d).

Definition set_attributes (a : pydict) (d : device_record) : device_record :=
  Device (device_mac d) (first_seen d) (last_seen d) (capabilities d) a.

Definition set_capabilities (c : list string) (d : device_record) : device_record :=
  Device (device_mac d) (first_seen d) (last_seen d) c (attributes d).

Inductive exn : Type :=
| JSONDecodeError | KeyError | TypeError | AttributeError | OSError
| RecursionError | ValueError | OverflowError.

Inductive level : Type := DEBUG | INFO | WARNING | ERROR.

(** The messages the module logs, with the data formatted into them. *)
Inductive message : Type :=
| Saved_devices (n : nat)
| Failed_to_save_devices (e : exn)
| Failed_to_parse_status_message (e : exn)
| Cannot_update_device_without_MAC
| Device_limit_reached (m : string)
| Device_data_too_large (m : string) (chars : Z)
| Updated_device (m : string) (n : nat)
| Ignoring_non_device_topic (topic : string)
| Ignoring_non_status_message (topic : string)
| Failed_to_parse_status_message_from (m : string)
| Skipping_short_status_message (m : string) (n : nat)
| Error_processing_MQTT_message (topic : string) (e : exn)
| Removed_old_device (m : string).

(** The object state: the in-memory mapping, the mapping that
    [devices.json] was last written from ([None]: no such file; the text
    of the file is what [json.dump] writes for that mapping) and the log,
    latest entry first. *)
Record storage : Type := Storage {
  _devices : gmap string device_record;
  devices_file : option (gmap string device_record);
  log : list (level * message)
}.

(** [DeviceStorage()] over a directory that holds no snapshot. *)
Definition empty_storage : storage := Storage ∅ None [].

Definition MAX_DEVICES : Z := 200.
Definition MAX_DEVICE_SIZE_BYTES : Z := 1024 * 1024.
Definition MAX_TOTAL_SIZE_BYTES : Z := 10 * 1024 * 1024.

(** ** The monad of methods *)

Inductive res (A : Type) : Type :=
| Ret (a : A)
| Raise (e : exn).
Arguments Ret {A} a.
Arguments Raise {A} e.

Definition M (A : Type) : Type := storage -> res A * storage.

Definition ret {A} (a : A) : M A := fun st => (Ret a, st).

Definition raise {A} (e : exn) : M A := fun st => (Raise e, st).

Definition bind {A B} (m : M A) (k : A -> M B) : M B :=
  fun st =>
    match m st with
    | (Ret a, st') => k a st'
    | (Raise e, st') => (Raise e, st')
    end.

Notation "x <- m ;; k" := (bind m (fun x => k))
  (at level 100, m at next level, right associativity).
Notation "m ;; k" := (bind m (fun _ => k))
  (at level 100, right associativity).

(** [try: body except <classes> as e: handler] *)
Definition try_except {A} (body : M A) (caught : exn -> bool) (handler : exn -> M A) : M A :=
  fun st =>
    match body st with
    | (Raise e, st') => if caught e then handler e st' else (Raise e, st')
    | r => r
    end.

Definition get : M storage := fun st => (Ret st, st).

Definition set_devices (m : gmap string device_record) : M unit :=
  fun st => (Ret tt, Storage m (devices_file st) (log st)).

Definition logger (l : level) (msg : message) : M unit :=
  fun st => (Ret tt, Storage (_devices st) (devices_file st) ((l, msg) :: log st)).

(** [except Exception] *)
Definition any_exception (e : exn) : bool := true.

(** ** Methods of [DeviceStorage] *)

(** The body of the [try] of [_save_devices]: dump to the temporary file
    and rename it over [devices.json]; [fs_ok = false] when one of [open],
    [json.dump] and [replace] raises, which leaves [devices.json] as it was. *)
Definition write_snapshot (fs_ok : bool) : M unit :=
  fun st =>
    if fs_ok then (Ret tt, Storage (_devices st) (Some (_devices st)) (log st))
    else (Raise OSError, st).

Definition _save_devices (fs_ok : bool) : M unit :=
  try_except
    (write_snapshot fs_ok ;;
     st <- get ;;
     logger DEBUG (Saved_devices (size (_devices st))))
    any_exception
    (fun e => logger ERROR (Failed_to_save_devices e)).

(** The result of [parse_status_message]: the dict with the keys [mac],
    [attributes] and [timestamp]; as the [status_data] of [update_device]
    the key [attributes] may be missing. *)
Record status : Type := Status {
  status_mac : pyvalue;
  status_attributes : option pydict;
  status_timestamp : Z
}.

(** [d[k] = v]: [TypeError] for an unhashable key. *)
Definition setitem (k v : pyvalue) (d : pydict) : M pydict :=
  match as_key k with
  | Some k => ret (dict_set k v d)
  | None => raise TypeError
  end.

(** [d.get(k)] *)
Definition get_or_none (k : string) (d : pydict) : pyvalue :=
  match dict_get (KStr k) d with Some v => v | None => PyNone end.

(** The [for item in status_list] loop of [parse_status_message], with its
    two variables [mac] and [parsed_data]. *)
Fixpoint parse_items (status_list : list pyvalue) (mac : pyvalue) (parsed_data : pydict)
  : M (pyvalue * pydict) :=
  match status_list with
  | [] => ret (mac, parsed_data)
  | item :: rest =>
      match item with
      | PyDict item =>
          let mac := if is_none mac then get_or_none "dn" item else mac in
          let type_key := get_or_none "type" item in
          let value := get_or_none "value" item in
          if truthy type_key && negb (is_none value) then
            parsed_data <- setitem type_key value parsed_data ;;
            parse_items rest mac parsed_data
          else parse_items rest mac parsed_data
      | _ => parse_items rest mac parsed_data
      end
  end.

Definition caught_by_parser (e : exn) : bool :=
  match e with
  | JSONDecodeError | KeyError | TypeError => true
  | _ => false
  end.

(** [device[...] = v].  When the key was found, [device] is the stored
    dict itself ([dict.get] returns the object, not a copy), so the store
    sees the write at once; the dict made for a new key is local until it
    is stored. *)
Definition assign (is_new_device : bool) (mac : string) (device : device_record) : M device_record :=
  if is_new_device then ret device
  else
    st <- get ;;
    set_devices (<[mac := device]> (_devices st)) ;;
    ret device.

(** [caps_str.split(',')] with each token stripped; a value that is not
    text has no [split]. *)
Definition derive_capabilities (caps_str : pyvalue) : M (list string) :=
  match caps_str with
  | PyStr s => ret (map strip (split "," s))
  | _ => raise AttributeError
  end.

(** [update_device].  The [return False] of the size check ends the method:
    the attribute step yields [None] for it. *)
Definition update_device (now : Z) (fs_ok : bool) (mac : string) (status_data : status)
  : M bool :=
  if negb (truthy (PyStr mac)) then
    logger WARNING Cannot_update_device_without_MAC ;;
    ret false
  else
    let mac := upper mac in
    let current_time := now in
    st <- get ;;
    let is_new_device := negb (bool_decide (is_Some (_devices st !! mac))) in
    if is_new_device && (MAX_DEVICES <=? Z.of_nat (size (_devices st))) then
      logger WARNING (Device_limit_reached mac) ;;
      ret false
    else
      let device :=
        default (Device mac current_time current_time [] []) (_devices st !! mac) in
      device <- assign is_new_device mac (set_last_seen current_time device) ;;
      checked <-
        match status_attributes status_data with
        | Some incoming =>
            let updated_attributes := dict_update (attributes device) incoming in
            let device_json := json_dumps (PyDict updated_attributes) in
            if MAX_DEVICE_SIZE_BYTES <? str_len device_json then
              logger WARNING (Device_data_too_large mac (str_len device_json)) ;;
              ret None
            else
              device <- assign is_new_device mac (set_attributes updated_attributes device) ;;
              ret (Some device)
        | None => ret (Some device)
        end ;;
      match checked with
      | None => ret false
      | Some device =>
          device <-
            (if dict_contains (KStr "supportAttributes") (attributes device) then
               caps <- derive_capabilities
                         (get_or_none "supportAttributes" (attributes device)) ;;
               assign is_new_device mac (set_capabilities caps device)
             else ret device) ;;
          st <- get ;;
          set_devices (<[mac := device]> (_devices st)) ;;
          _save_devices fs_ok ;;
          logger INFO (Updated_device mac
                         (length (default [] (status_attributes status_data)))) ;;
          ret true
      end.

(** [get_device] *)
Definition get_device (mac : string) : M (option device_record) :=
  st <- get ;; ret (_devices st !! upper mac).

(** [get_all_devices]: a copy of the mapping *)
Definition get_all_devices : M (gmap string device_record) :=
  st <- get ;; ret (_devices st).

(** [get_device_count] *)
Definition get_device_count : M nat :=
  st <- get ;; ret (size (_devices st)).

(** [del self._devices[mac]] for each collected key *)
Fixpoint remove_devices (old_devices : list string) : M unit :=
  match old_devices with
  | [] => ret tt
  | mac :: rest =>
      st <- get ;;
      match _devices st !! mac with
      | Some _ =>
          set_devices (delete mac (_devices st)) ;;
          logger INFO (Removed_old_device mac) ;;
          remove_devices rest
      | None => raise KeyError
      end
  end.

(** An int as a float operand ([PyLong_AsDouble]): the nearest double,
    ties to even; [OverflowError] when that is out of range. *)
Definition int_to_float (z : Z) : res float :=
  match binary_normalize prec emax z 0 false with
  | S754_infinity _ => Raise OverflowError
  | x => Ret (SF2Prim x)
  end.

(** [int(x)] on a float: truncation towards zero; [OverflowError] for an
    infinity, [ValueError] for a NaN. *)
Definition float_to_int (x : float) : res Z :=
  match Prim2SF x with
  | S754_zero _ => Ret 0
  | S754_finite s m e =>
      let v := if 0 <=? e then Z.pos m * 2 ^ e else Z.pos m / 2 ^ (- e) in
      Ret (if s then - v else v)
  | S754_infinity _ => Raise OverflowError
  | S754_nan => Raise ValueError
  end.

(** [int((time.time() - (max_age_days * 24 * 3600)) * 1000)], line 224:
    the product of ints is exact, the difference and the product with
    1000 are float operations; [t] is [time.time()]. *)
Definition cutoff_time (t : float) (max_age_days : Z) : res Z :=
  match int_to_float (max_age_days * 24 * 3600) with
  | Ret age =>
      match int_to_float 1000 with
      | Ret thousand => float_to_int (PrimFloat.mul (PrimFloat.sub t age) thousand)
      | Raise e => Raise e
      end
  | Raise e => Raise e
  end.

(** The outcome of an expression that touches no state. *)
Definition lift {A} (r : res A) : M A := fun st => (r, st).

(** [self._devices.items()]: the entries in the insertion order of the
    dict.  The mapping does not record that order: [insertion_order] is
    the list of its keys as the dict holds them. *)
Definition dict_items (insertion_order : list string) (m : gmap string device_record)
  : list (string * device_record) :=
  omap (fun mac => d ← m !! mac; Some (mac, d)) insertion_order.

(** [cleanup_old_devices] *)
Definition cleanup_old_devices (t : float) (insertion_order : list string)
    (fs_ok : bool) (max_age_days : Z) : M nat :=
  cutoff_time <- lift (cutoff_time t max_age_days) ;;
  st <- get ;;
  let old_devices :=
    map fst (filter (fun kv => last_seen kv.2 < cutoff_time)
               (dict_items insertion_order (_devices st))) in
  remove_devices old_devices ;;
  (if bool_decide (old_devices = []) then ret tt else _save_devices fs_ok) ;;
  ret (length old_devices).

(** The integer fields of [get_storage_stats]; the two percentages are
    floating point and are not part of the record.  [file_size] is what
    [stat] reports, 0 without a file. *)
Record stats : Type := Stats {
  total_devices : nat;
  max_devices : Z;
  file_size_bytes : Z;
  max_file_size_bytes : Z;
  last_updated : Z
}.

Definition get_storage_stats (file_size : Z) : M stats :=
  st <- get ;;
  let seen := map (fun kv => last_seen kv.2) (map_to_list (_devices st)) in
  ret (Stats (size (_devices st)) MAX_DEVICES file_size MAX_TOTAL_SIZE_BYTES
         (match seen with [] => 0 | t :: ts => foldl Z.max t ts end)).

Definition isinstance_list (v : pyvalue) : bool :=
  match v with PyList _ => true | _ => false end.

Definition list_items (v : pyvalue) : list pyvalue :=
  match v with PyList l => l | _ => [] end.

Section Methods.

(** [json.loads] on text: the decoded value, or the exception it raises. *)
Variable json_loads : string -> res pyvalue.

Definition loads (payload : string) : M pyvalue :=
  fun st => (json_loads payload, st).

Definition parse_status_message (now : Z) (payload : string) : M (option status) :=
  try_except
    (status_list <- loads payload ;;
     if negb (isinstance_list status_list) || negb (truthy status_list) then ret None
     else
       r <- parse_items (list_items status_list) PyNone [] ;;
       ret (Some (Status r.1 (Some r.2) now)))
    caught_by_parser
    (fun e => logger WARNING (Failed_to_parse_status_message e) ;; ret None).

(** [process_mqtt_message]; the clock is read once by the parser
    ([t_parse]) and once by [update_device] ([t_update]). *)
Definition process_mqtt_message (t_parse t_update : Z) (fs_ok : bool)
    (topic payload : string) : M bool :=
  try_except
    (let topic_parts := split "/" topic in
     if (length topic_parts <? 3)%nat
        || negb (String.eqb (nth 0 topic_parts "") "wifielement") then
       logger DEBUG (Ignoring_non_device_topic topic) ;;
       ret false
     else
       let mac := nth 1 topic_parts "" in
       let message_type := nth 2 topic_parts "" in
       if negb (String.eqb message_type "status") then
         logger DEBUG (Ignoring_non_status_message topic) ;;
         ret false
       else
         parsed <- parse_status_message t_parse payload ;;
         match parsed with
         | None =>
             logger WARNING (Failed_to_parse_status_message_from mac) ;;
             ret false
         | Some parsed =>
             let n := length (default [] (status_attributes parsed)) in
             if (n <? 5)%nat then
               logger DEBUG (Skipping_short_status_message mac n) ;;
               ret false
             else update_device t_update fs_ok mac parsed
         end)
    any_exception
    (fun e => logger ERROR (Error_processing_MQTT_message topic e) ;; ret false).

End Methods.

Arguments json_dumps : simpl never.
Arguments str_len : simpl never.
Arguments upper : simpl never.
Arguments dict_update : simpl never.
Arguments dict_get : simpl never.

(** * The listener ([mqtt_listener.py]) *)

Section Listener.

Variable json_loads : string -> res pyvalue.

(** A reading of [time.time()], kept as it was read. *)
Variable seconds : Type.

(** The [stats] dictionary of [SengledMQTTListener]. *)
Record statistics := Statistics {
  messages_received : Z;
  messages_processed : Z;
  connection_attempts : Z;
  last_message : option seconds;
  start_time : seconds
}.

Inductive listener_message :=
| Received_message_on (topic payload_start : string)
| Successfully_processed_message_from (topic : string)
| Error_processing_MQTT_message_in_listener (e : exn).

(** The fields of [SengledMQTTListener] that [_on_message] reads or
    writes: [self.storage], [self.stats] and the records of the module's
    logger, newest first. *)
Record SengledMQTTListener := Listener {
  listener_storage : storage;
  listener_stats : statistics;
  listener_log : list (level * listener_message)
}.

(** [payload[:100]] *)
Definition first_100 (payload : string) : string := substring 0 100 payload.

(** [_on_message]; [payload] is the decoded text of the message,
    [now] the reading of the clock for [last_message]. *)
Definition _on_message (now : seconds) (t_parse t_update : Z) (fs_ok : bool)
    (topic payload : string) (self : SengledMQTTListener) : SengledMQTTListener :=
  let s := listener_stats self in
  let s := Statistics (messages_received s + 1) (messages_processed s)
             (connection_attempts s) (last_message s) (start_time s) in
  let s := Statistics (messages_received s) (messages_processed s)
             (connection_attempts s) (Some now) (start_time s) in
  let l := (DEBUG, Received_message_on topic (first_100 payload)) :: listener_log self in
  match process_mqtt_message json_loads t_parse t_update fs_ok topic payload
          (listener_storage self) with
  | (Ret true, st) =>
      let s := Statistics (messages_received s) (messages_processed s + 1)
                 (connection_attempts s) (last_message s) (start_time s) in
      Listener st s ((DEBUG, Successfully_processed_message_from topic) :: l)
  | (Ret false, st) => Listener st s l
  | (Raise e, st) =>
      Listener st s ((ERROR, Error_processing_MQTT_message_in_listener e) :: l)
  end.

(** One message as the client hands it over, with the readings of the
    clock and the outcome of the file system during its handling. *)
Record delivery := Delivery {
  delivery_now : seconds;
  delivery_t_parse : Z;
  delivery_t_update : Z;
  delivery_fs_ok : bool;
  delivery_topic : string;
  delivery_payload : string
}.

Definition deliver (self : SengledMQTTListener) (m : delivery) : SengledMQTTListener :=
  _on_message (delivery_now m) (delivery_t_parse m) (delivery_t_update m)
    (delivery_fs_ok m) (delivery_topic m) (delivery_payload m) self.

Definition deliver_all (ms : list delivery) (self : SengledMQTTListener)
    : SengledMQTTListener :=
  foldl deliver self ms.

End Listener.

Arguments messages_received {seconds}.
Arguments messages_processed {seconds}.
Arguments connection_attempts {seconds}.
Arguments last_message {seconds}.
Arguments start_time {seconds}.
Arguments listener_storage {seconds}.
Arguments listener_stats {seconds}.
Arguments listener_log {seconds}.

(** * Vocabulary of the statements *)

Definition with_log (e : level * message) (st : storage) : storage :=
  Storage (_devices st) (devices_file st) (e :: log st).

(** The [device] of [update_device] under the canonical key [k]: the stored
    record, or the one made for a new key. *)
Definition current_device (now : Z) (k : string) (st : storage) : device_record :=
  default (Device k now now [] []) (_devices st !! k).

(** The attributes after the merge of the incoming ones, if any. *)
Definition merged_attributes (d : device_record) (sd : status) : pydict :=
  match status_attributes sd with
  | Some incoming => dict_update (attributes d) incoming
  | None => attributes d
  end.

(** What the writes through the alias leave in the mapping: nothing for a
    new key, the record as written so far for a stored one. *)
Definition written_through (k : string) (d : device_record) (st : storage)
  : gmap string device_record :=
  match _devices st !! k with
  | Some _ => <[k := d]> (_devices st)
  | None => _devices st
  end.

(** The capacity check lets the update through. *)
Definition has_room (k : string) (st : storage) : Prop :=
  is_Some (_devices st !! k) \/ Z.of_nat (size (_devices st)) < MAX_DEVICES.

(** The size check lets the update through. *)
Definition fits (merged : pydict) (sd : status) : Prop :=
  json_size merged <= MAX_DEVICE_SIZE_BYTES \/ status_attributes sd = None.

(** The five ways [update_device] ends, with the state it leaves. *)
Inductive update_outcome (now : Z) (fs_ok : bool) (mac : string) (sd : status)
    (st : storage) : res bool * storage -> Prop :=
| rejected_no_mac :
    mac = "" ->
    update_outcome now fs_ok mac sd st
      (Ret false, with_log (WARNING, Cannot_update_device_without_MAC) st)
| rejected_full :
    mac <> "" ->
    _devices st !! upper mac = None ->
    MAX_DEVICES <= Z.of_nat (size (_devices st)) ->
    update_outcome now fs_ok mac sd st
      (Ret false, with_log (WARNING, Device_limit_reached (upper mac)) st)
| rejected_too_large :
    let cur := current_device now (upper mac) st in
    let merged := merged_attributes cur sd in
    mac <> "" ->
    has_room (upper mac) st ->
    is_Some (status_attributes sd) ->
    MAX_DEVICE_SIZE_BYTES < json_size merged ->
    update_outcome now fs_ok mac sd st
      (Ret false,
       Storage (written_through (upper mac) (set_last_seen now cur) st) (devices_file st)
         ((WARNING, Device_data_too_large (upper mac) (json_size merged)) :: log st))
| raised_no_split v :
    let cur := current_device now (upper mac) st in
    let merged := merged_attributes cur sd in
    mac <> "" ->
    has_room (upper mac) st ->
    fits merged sd ->
    dict_get (KStr "supportAttributes") merged = Some v ->
    (forall s, v <> PyStr s) ->
    update_outcome now fs_ok mac sd st
      (Raise AttributeError,
       Storage
         (written_through (upper mac) (set_attributes merged (set_last_seen now cur)) st)
         (devices_file st) (log st))
| accepted caps :
    let cur := current_device now (upper mac) st in
    let merged := merged_attributes cur sd in
    mac <> "" ->
    has_room (upper mac) st ->
    fits merged sd ->
    match dict_get (KStr "supportAttributes") merged with
    | Some v => exists s, v = PyStr s /\ caps = map strip (split "," s)
    | None => caps = capabilities cur
    end ->
    let final := Device (device_mac cur) (first_seen cur) now caps merged in
    let m := <[upper mac := final]> (_devices st) in
    update_outcome now fs_ok mac sd st
      (Ret true,
       Storage m (if fs_ok then Some m else devices_file st)
         ((INFO, Updated_device (upper mac) (length (default [] (status_attributes sd))))
          :: (if fs_ok then (DEBUG, Saved_devices (size m))
              else (ERROR, Failed_to_save_devices OSError))
          :: log st)).

(** The log entries written between two states. *)
Definition emitted (st st' : storage) : list (level * message) :=
  take (length (log st') - length (log st)) (log st').

(** The persistence step ran and failed: [_save_devices] logged its error. *)
Definition persistence_failed (st st' : storage) : Prop :=
  exists e, (ERROR, Failed_to_save_devices e) ∈ emitted st st'.

(** One call of [update_device] with the clock and file system it meets. *)
Record update_call : Type := Update_call {
  call_now : Z;
  call_fs_ok : bool;
  call_mac : string;
  call_status : status
}.

(** A sequence of [update_device] calls, whatever each one returns or raises. *)
Definition run_updates (calls : list update_call) (st : storage) : storage :=
  foldl (fun st c =>
           (update_device (call_now c) (call_fs_ok c) (call_mac c) (call_status c) st).2)
    st calls.

(** The equivalence class of a key under [==]. *)
Definition key_class (k : pykey) : unit + Z + string :=
  match k with
  | KNone => inl (inl tt)
  | KBool b => inl (inr (if b then 1 else 0))
  | KInt z => inl (inr z)
  | KStr s => inr s
  end.

(** The value the last entry of [l] under a key equal to [k] gives it. *)
Fixpoint dict_last (k : pykey) (l : pydict) : option pyvalue :=
  match l with
  | [] => None
  | (k0, v0) :: l' =>
      match dict_last k l' with
      | Some v => Some v
      | None => if key_eqb k0 k then Some v0 else None
      end
  end.

(** [d[k] = v] for a key that is present: no entry is added. *)
Fixpoint dict_replace (k : pykey) (v : pyvalue) (d : pydict) : pydict :=
  match d with
  | [] => []
  | (k0, v0) :: d' =>
      if key_eqb k0 k then (k0, v) :: d' else (k0, v0) :: dict_replace k v d'
  end.

(** ** The tokens of a capability text *)

(** The code points below 256 that Python counts as whitespace. *)
Definition whitespace : list N := [9; 10; 11; 12; 13; 28; 29; 30; 31; 32; 133; 160]%N.

Definition is_whitespace (c : ascii) : Prop := N_of_ascii c ∈ whitespace.

(** Every character of the text is whitespace. *)
Definition blank (s : string) : Prop := Forall is_whitespace (list_ascii_of_string s).

(** The text neither starts nor ends with whitespace. *)
Definition no_outer_whitespace (s : string) : Prop :=
  (forall c, head (list_ascii_of_string s) = Some c -> ¬ is_whitespace c)
  /\ (forall c, last (list_ascii_of_string s) = Some c -> ¬ is_whitespace c).

(** [cap] is [token] without the whitespace at its two ends. *)
Definition trimmed (token cap : string) : Prop :=
  no_outer_whitespace cap
  /\ exists l r, blank l /\ blank r /\ token = l +:+ cap +:+ r.

(** [tokens] are the pieces of [s] between its commas, in order. *)
Definition comma_split (s : string) (tokens : list string) : Prop :=
  tokens <> []
  /\ join "," tokens = s
  /\ Forall (fun token => ","%char ∉ list_ascii_of_string token) tokens.

(** ** The parser and the ingestion path *)

(** The entry a record adds to the attributes: the key its [type] hashes
    to and its [value] as decoded; nothing for a record that is not a
    dict, has a falsy [type] or has no [value]. *)
Definition record_entry (item : pyvalue) : option (pykey * pyvalue) :=
  match item with
  | PyDict d =>
      if truthy (get_or_none "type" d) && negb (is_none (get_or_none "value" d)) then
        k ← as_key (get_or_none "type" d); Some (k, get_or_none "value" d)
      else None
  | _ => None
  end.

Definition entries_of (items : list pyvalue) : pydict := omap record_entry items.

(** The [type] of every record that is a dict is hashable. *)
Definition hashable_types (items : list pyvalue) : Prop :=
  Forall (fun item =>
            match item with
            | PyDict d => is_Some (as_key (get_or_none "type" d))
            | _ => True
            end) items.

(** The [dn] of the first dict record that has one. *)
Fixpoint first_dn (mac : pyvalue) (items : list pyvalue) : pyvalue :=
  match items with
  | [] => mac
  | PyDict d :: rest => first_dn (if is_none mac then get_or_none "dn" d else mac) rest
  | _ :: rest => first_dn mac rest
  end.

(** No two entries have equal keys. *)
Definition distinct_keys (d : pydict) : Prop := NoDup (key_class <$> d.*1).

(** A decoder that knows one document: the text [json.dumps] writes for
    [v] decodes to [v]. *)
Definition loads_only (v : pyvalue) (payload : string) : res pyvalue :=
  if String.eqb payload (json_dumps v) then Ret v else Raise JSONDecodeError.

(** A decoder of which one outcome is known: on [text] it raises [e]. *)
Definition raises_on (text : string) (e : exn) (payload : string) : res pyvalue :=
  if String.eqb payload text then Raise e else Raise JSONDecodeError.

(** The topic filter of [process_mqtt_message] lets the topic through. *)
Definition status_topic (topic : string) : Prop :=
  (3 <= length (split "/" topic))%nat
  /\ nth 0 (split "/" topic) "" = "wifielement"
  /\ nth 2 (split "/" topic) "" = "status".

(** The second segment of the topic. *)
Definition topic_mac (topic : string) : string := nth 1 (split "/" topic) "".

(** The [except Exception] handler of [process_mqtt_message]. *)
Definition on_error (topic : string) (e : exn) : M bool :=
  logger ERROR (Error_processing_MQTT_message topic e) ;; ret false.

(** ** The key of a record *)

(** Every record is stored under its own [mac], which is upper case. *)
Definition store_inv (m : gmap string device_record) : Prop :=
  forall k d, m !! k = Some d -> device_mac d = k /\ upper k = k.

(** A method keeps [store_inv], however it ends. *)
Definition keeps_inv {A} (c : M A) : Prop :=
  forall st, store_inv (_devices st) -> store_inv (_devices (c st).2).

(** The calls a client of the store can make. *)
Inductive operation : Type :=
| Call_update_device (now : Z) (fs_ok : bool) (mac : string) (sd : status)
| Call_process_mqtt_message (t_parse t_update : Z) (fs_ok : bool) (topic payload : string)
| Call_cleanup_old_devices (t : float) (insertion_order : list string) (fs_ok : bool)
    (max_age_days : Z)
| Call_get_device (mac : string)
| Call_get_all_devices
| Call_get_device_count
| Call_get_storage_stats (file_size : Z).

(** The state a call leaves, whatever it returns or raises. *)
Definition apply_operation (json_loads : string -> res pyvalue) (o : operation)
    (st : storage) : storage :=
  match o with
  | Call_update_device now fs_ok mac sd => (update_device now fs_ok mac sd st).2
  | Call_process_mqtt_message t_parse t_update fs_ok topic payload =>
      (process_mqtt_message json_loads t_parse t_update fs_ok topic payload st).2
  | Call_cleanup_old_devices t insertion_order fs_ok max_age_days =>
      (cleanup_old_devices t insertion_order fs_ok max_age_days st).2
  | Call_get_device mac => (get_device mac st).2
  | Call_get_all_devices => (get_all_devices st).2
  | Call_get_device_count => (get_device_count st).2
  | Call_get_storage_stats file_size => (get_storage_stats file_size st).2
  end.

Definition run_operations (json_loads : string -> res pyvalue)
    (ops : list operation) (st : storage) : storage :=
  foldl (fun st o => apply_operation json_loads o st) st ops.

(** [order] holds the keys of the mapping, each once: what the insertion
    order of the dict is, whichever it is. *)
Definition lists_keys (order : list string) (m : gmap string device_record) : Prop :=
  NoDup order /\ forall k, k ∈ order <-> is_Some (m !! k).

(** A method keeps the property [P] of the mapping, however it ends. *)
Definition preserves (P : gmap string device_record -> Prop) {A} (c : M A) : Prop :=
  forall st, P (_devices st) -> P (_devices (c st).2).

(** The attributes of every record pass the size check. *)
Definition attributes_fit (m : gmap string device_record) : Prop :=
  forall k d, m !! k = Some d -> json_size (attributes d) <= MAX_DEVICE_SIZE_BYTES.

(** ** Concrete inputs *)

Fixpoint double_text (n : nat) (s : string) : string :=
  match n with
  | O => s
  | S n' => double_text n' (s +:+ s)
  end.

(** 1048576 letters: alone it serializes to more than 1 MiB. *)
Definition text_1MiB : string := double_text 20 "a".

Definition oversize_status : status :=
  Status PyNone (Some [(KStr "blob", PyStr text_1MiB)]) 0.

Definition one_device : gmap string device_record :=
  {[ "AA:BB" := Device "AA:BB" 11 11 [] [] ]}.

Definition one_device_storage : storage := Storage one_device (Some one_device) [].

Definition capability_status : status :=
  Status PyNone (Some [(KStr "supportAttributes", PyStr "brightness, switch,color")]) 0.

(** A capability text with spaces, a tab, a no-break space and a line
    feed around its tokens. *)
Definition spaced_capability_text : string :=
  " brightness ," +:+ String (ascii_of_N 9) "switch" +:+ String (ascii_of_N 160) ", color"
  +:+ String (ascii_of_N 10) "".

Definition spaced_capability_status : status :=
  Status PyNone (Some [(KStr "supportAttributes", PyStr spaced_capability_text)]) 0.

Definition empty_status : status := Status PyNone (Some []) 0.

Definition numbered_call (n : nat) : update_call :=
  Update_call (Z.of_nat n) true ("dev" +:+ pretty n) empty_status.

Definition full_calls : list update_call := numbered_call <$> seq 0 200.

(** The store after 200 devices have reported. *)
Abbreviation full_storage := (run_updates full_calls empty_storage).

Definition status_record (dn ty v : string) : pyvalue :=
  PyDict [(KStr "dn", PyStr dn); (KStr "type", PyStr ty); (KStr "value", PyStr v)].

(** The status snapshot of the end-to-end scenario. *)
Definition snapshot_document (dn : string) : pyvalue :=
  PyList [status_record dn "brightness" "25";
          status_record dn "switch" "1";
          status_record dn "colorTemperature" "200";
          status_record dn "supportAttributes" "brightness,switch,colorTemperature";
          status_record dn "online" "1"].

(** A partial push: one attribute. *)
Definition partial_document : pyvalue :=
  PyList [status_record "B0:CE:18:C3:3A:A2" "supportAttributes" "brightness,switch"].

(** A document with a number as value. *)
Definition int_value_document : pyvalue :=
  PyList [PyDict [(KStr "type", PyStr "brightness"); (KStr "value", PyInt 25)]].

(** One hundred thousand opening brackets, [ '[' * 100000 ]: deeper than
    the decoder can nest. *)
Definition deep_brackets : string := N.iter 100000 (String "["%char) "".

(** A document whose second record has a list as [type]. *)
Definition unhashable_document : pyvalue :=
  PyList [PyDict [(KStr "type", PyStr "switch"); (KStr "value", PyStr "1")];
          PyDict [(KStr "type", PyList [PyStr "x"]); (KStr "value", PyStr "2")]].

(** A document with a record that is no dict, a repeated type and a
    record without [dn]. *)
Definition mixed_document : pyvalue :=
  PyList [PyStr "junk";
          PyDict [(KStr "dn", PyStr "AA"); (KStr "type", PyStr "switch");
                  (KStr "value", PyStr "0")];
          PyDict [(KStr "type", PyStr "switch"); (KStr "value", PyStr "1")];
          PyDict [(KStr "type", PyStr "brightness"); (KStr "value", PyInt 25)]].

(** A snapshot over MQTT, a direct update, two reads, and a sweep, when
    the clock reads 86400.0035, that removes the older of the two records. *)
Definition sample_operations : list operation :=
  [Call_process_mqtt_message 1 2 true "wifielement/b0:ce:18:c3:3a:a2/status"
     (json_dumps (snapshot_document "B0:CE:18:C3:3A:A2"));
   Call_update_device 3 false "aa:bb" capability_status;
   Call_get_device "aa:bb";
   Call_get_storage_stats 0;
   Call_cleanup_old_devices 0x1.518000e560419p+16 ["B0:CE:18:C3:3A:A2"; "AA:BB"] true 1].

(** Two records, last seen at 1 and at 2, stored in that order. *)
Definition two_device_storage : storage :=
  Storage (<["B0:CE" := Device "B0:CE" 2 2 [] []]> {["AA:BB" := Device "AA:BB" 1 1 [] []]})
    None [].

(** A status whose [supportAttributes] is a number. *)
Definition number_capability_status : status :=
  Status PyNone (Some [(KStr "supportAttributes", PyInt 5)]) 0.

(** * Properties *)

Ltac mrun :=
  repeat (unfold bind, ret, raise, get, set_devices, logger, try_except, assign,
           write_snapshot, _save_devices, any_exception, derive_capabilities; simpl).

Lemma upper_char_idem c : upper_char (upper_char c) = upper_char c.
Proof. destruct c as [[] [] [] [] [] [] [] []]; reflexivity. Qed.

Lemma upper_idem s : upper (upper s) = upper s.
Proof.
  induction s as [|c s IH]; [done|].
  change (upper (String c s)) with (String (upper_char c) (upper s)).
  change (upper (String (upper_char c) (upper s)))
    with (String (upper_char (upper_char c)) (upper (upper s))).
  by rewrite upper_char_idem, IH.
Qed.

(** ** The outcomes of [update_device] *)

Ltac outcome c :=
  eapply (eq_ind _ (update_outcome _ _ _ _ _)); [eapply c |];
  unfold has_room, fits, current_device, merged_attributes, written_through, json_size;
  try done.

Lemma update_device_outcome now fs_ok mac sd st :
  update_outcome now fs_ok mac sd st (update_device now fs_ok mac sd st).
Proof.
  unfold update_device.
  destruct (String.eqb_spec mac "") as [Hmac|Hmac].
  { replace (negb (truthy (PyStr mac))) with true by (by rewrite Hmac).
    by apply rejected_no_mac. }
  replace (negb (truthy (PyStr mac))) with false.
  2:{ simpl. destruct (String.eqb_spec mac ""); done. }
  mrun. unfold dict_contains, get_or_none.
  assert (Hstored : forall d, _devices st !! upper mac = Some d ->
            is_Some (_devices st !! upper mac)
            \/ Z.of_nat (size (_devices st)) < MAX_DEVICES)
    by (intros d ->; left; eauto).
  destruct (_devices st !! upper mac) as [d|] eqn:Hl; simpl.
  - specialize (Hstored d eq_refl).
    destruct (status_attributes sd) as [inc|] eqn:Hsd; simpl.
    + destruct (Z.ltb_spec MAX_DEVICE_SIZE_BYTES
                  (str_len (json_dumps (PyDict (dict_update (attributes d) inc)))))
        as [Hbig|Hfit]; simpl.
      { outcome rejected_too_large. all: rewrite ?Hl, ?Hsd; simpl; eauto. }
      destruct (dict_get (KStr "supportAttributes") (dict_update (attributes d) inc))
        as [v|] eqn:Hsup; simpl.
      * destruct v; simpl;
          [ outcome raised_no_split | outcome raised_no_split | outcome raised_no_split
          | outcome accepted | outcome raised_no_split | outcome raised_no_split ].
        all: rewrite ?Hl, ?Hsd; simpl; rewrite ?Hsup; eauto.
        all: try destruct fs_ok; simpl; rewrite ?insert_insert_eq; reflexivity.
      * outcome accepted.
        all: rewrite ?Hl, ?Hsd; simpl; rewrite ?Hsup; eauto.
        destruct fs_ok; simpl; rewrite ?insert_insert_eq; reflexivity.
    + destruct (dict_get (KStr "supportAttributes") (attributes d))
        as [v|] eqn:Hsup; simpl.
      * destruct v; simpl;
          [ outcome raised_no_split | outcome raised_no_split | outcome raised_no_split
          | outcome accepted | outcome raised_no_split | outcome raised_no_split ].
        all: rewrite ?Hl, ?Hsd; simpl; rewrite ?Hsup; eauto.
        all: try destruct fs_ok; simpl; rewrite ?insert_insert_eq; reflexivity.
      * outcome accepted.
        all: rewrite ?Hl, ?Hsd; simpl; rewrite ?Hsup; eauto.
        destruct fs_ok; simpl; rewrite ?insert_insert_eq; reflexivity.
  - clear Hstored.
    destruct (Z.leb_spec MAX_DEVICES (Z.of_nat (size (_devices st)))) as [Hfull|Hroom];
      simpl.
    { by apply rejected_full. }
    assert (Hroom' : is_Some (_devices st !! upper mac)
                     \/ Z.of_nat (size (_devices st)) < MAX_DEVICES)
      by (by right).
    destruct (status_attributes sd) as [inc|] eqn:Hsd; simpl.
    + destruct (Z.ltb_spec MAX_DEVICE_SIZE_BYTES
                  (str_len (json_dumps (PyDict (dict_update [] inc)))))
        as [Hbig|Hfit]; simpl.
      { outcome rejected_too_large. all: rewrite ?Hl, ?Hsd; simpl; eauto. }
      destruct (dict_get (KStr "supportAttributes") (dict_update [] inc))
        as [v|] eqn:Hsup; simpl.
      * destruct v; simpl;
          [ outcome raised_no_split | outcome raised_no_split | outcome raised_no_split
          | outcome accepted | outcome raised_no_split | outcome raised_no_split ].
        all: rewrite ?Hl, ?Hsd; simpl; rewrite ?Hsup; eauto.
        all: try destruct fs_ok; try reflexivity; by destruct st.
      * outcome accepted.
        all: rewrite ?Hl, ?Hsd; simpl; rewrite ?Hsup; eauto.
        destruct fs_ok; reflexivity.
    + outcome accepted.
      all: rewrite ?Hl, ?Hsd; simpl; eauto.
      destruct fs_ok; reflexivity.
Qed.

Lemma current_device_stored now k st d :
  _devices st !! k = Some d -> current_device now k st = d.
Proof. unfold current_device. by intros ->. Qed.

Lemma written_through_stored k d' st d :
  _devices st !! k = Some d -> written_through k d' st = <[k := d']> (_devices st).
Proof. unfold written_through. by intros ->. Qed.

(** What [update_device] leaves behind when it returns [True]. *)
Lemma update_device_accepted now fs_ok mac sd st st' :
  update_device now fs_ok mac sd st = (Ret true, st') ->
  let cur := current_device now (upper mac) st in
  let merged := merged_attributes cur sd in
  exists caps,
    mac <> "" /\ has_room (upper mac) st /\ fits merged sd
    /\ match dict_get (KStr "supportAttributes") merged with
       | Some v => exists s, v = PyStr s /\ caps = map strip (split "," s)
       | None => caps = capabilities cur
       end
    /\ _devices st'
       = <[upper mac := Device (device_mac cur) (first_seen cur) now caps merged]> (_devices st)
    /\ devices_file st' = (if fs_ok then Some (_devices st') else devices_file st)
    /\ log st'
       = (INFO, Updated_device (upper mac) (length (default [] (status_attributes sd))))
         :: (if fs_ok then (DEBUG, Saved_devices (size (_devices st')))
             else (ERROR, Failed_to_save_devices OSError))
         :: log st.
Proof.
  intros E cur merged.
  pose proof (update_device_outcome now fs_ok mac sd st) as O.
  rewrite E in O.
  inversion O as [ | | | | caps cur' merged' Hmac Hroom Hfit Hcaps final m ].
  exists caps. subst cur' merged' final m. simpl.
  repeat (split; [assumption || reflexivity|]). reflexivity.
Qed.

(** When [update_device] returns [True]. *)
Lemma update_device_accepts now fs_ok mac sd st :
  let cur := current_device now (upper mac) st in
  let merged := merged_attributes cur sd in
  mac <> "" -> has_room (upper mac) st -> fits merged sd ->
  (forall v, dict_get (KStr "supportAttributes") merged = Some v -> exists s, v = PyStr s) ->
  exists st', update_device now fs_ok mac sd st = (Ret true, st').
Proof.
  intros cur merged Hmac Hroom Hfit Hcaps.
  pose proof (update_device_outcome now fs_ok mac sd st) as O.
  destruct (update_device now fs_ok mac sd st) as [r st'] eqn:E.
  inversion O as [ ? | ? Hnone Hfull | cur' merged' ? ? Hsome Hbig
                 | v cur' merged' ? ? ? Hsup Hnot | ]; subst.
  - done.
  - destruct Hroom as [[d Hd]|Hroom]; [congruence | lia].
  - destruct Hfit as [Hfit|Hfit].
    + subst merged merged' cur cur'. lia.
    + rewrite Hfit in Hsome. by destruct Hsome.
  - destruct (Hcaps v Hsup) as [s ->]. by destruct (Hnot s).
  - eauto.
Qed.

Lemma emitted_app st st' (l : list (level * message)) :
  log st' = (l ++ log st)%list -> emitted st st' = l.
Proof.
  intros H. unfold emitted. rewrite H, length_app.
  replace (length l + length (log st) - length (log st))%nat with (length l) by lia.
  apply take_app_length.
Qed.

(** ** Oversized updates *)

(** C1, as the code has it: an update of a stored identifier whose merged
    attributes serialize to more than [MAX_DEVICE_SIZE_BYTES] returns
    [False] and writes no snapshot; attributes, capabilities and
    [first_seen] of the stored record stay, but its [last_seen] has
    already been set to the time of the call, through the alias. *)
Theorem update_device_too_large_touches_last_seen now fs_ok mac sd st d :
  mac <> "" ->
  _devices st !! upper mac = Some d ->
  is_Some (status_attributes sd) ->
  MAX_DEVICE_SIZE_BYTES < json_size (merged_attributes d sd) ->
  exists st',
    update_device now fs_ok mac sd st = (Ret false, st')
    /\ _devices st' = <[upper mac := set_last_seen now d]> (_devices st)
    /\ devices_file st' = devices_file st.
Proof.
  intros Hmac Hl Hsd Hbig.
  pose proof (update_device_outcome now fs_ok mac sd st) as O.
  destruct (update_device now fs_ok mac sd st) as [r st'] eqn:E.
  inversion O as [ ? | ? Hnone | cur merged ? ? ? ? | v cur merged ? ? Hfit
                 | caps cur merged ? ? Hfit ]; subst.
  - done.
  - congruence.
  - subst cur. rewrite (current_device_stored _ _ _ _ Hl).
    rewrite (written_through_stored _ _ _ _ Hl). eauto.
  - subst cur merged. rewrite (current_device_stored _ _ _ _ Hl) in Hfit.
    destruct Hfit as [Hfit|Hfit]; [lia|]. rewrite Hfit in Hsd. by destruct Hsd.
  - subst cur merged. rewrite (current_device_stored _ _ _ _ Hl) in Hfit.
    destruct Hfit as [Hfit|Hfit]; [lia|]. rewrite Hfit in Hsd. by destruct Hsd.
Qed.

(** The record of AA:BB, last seen at 11, is sent 1 MiB of text at 20. *)
Lemma update_device_too_large_witness :
  exists st',
    update_device 20 true "aa:bb" oversize_status one_device_storage = (Ret false, st')
    /\ last_seen <$> (_devices one_device_storage !! "AA:BB") = Some 11
    /\ last_seen <$> (_devices st' !! "AA:BB") = Some 20
    /\ devices_file st' = devices_file one_device_storage.
Proof.
  destruct (update_device_too_large_touches_last_seen 20 true "aa:bb" oversize_status
              one_device_storage (Device "AA:BB" 11 11 [] []))
    as (st' & E & Hd & Hf).
  - discriminate.
  - reflexivity.
  - by eexists.
  - vm_compute. reflexivity.
  - exists st'. split; [exact E|]. rewrite Hd. split; [reflexivity|].
    split; [reflexivity | exact Hf].
Defined.

(** ** Capabilities *)

Lemma is_space_whitespace c : is_space c = bool_decide (is_whitespace c).
Proof. destruct c as [[] [] [] [] [] [] [] []]; vm_compute; reflexivity. Qed.

Lemma is_space_true c : is_space c = true -> is_whitespace c.
Proof. rewrite is_space_whitespace. apply bool_decide_eq_true_1. Qed.

Lemma is_space_false c : is_space c = false -> ¬ is_whitespace c.
Proof. rewrite is_space_whitespace. apply bool_decide_eq_false_1. Qed.

Lemma lstrip_spec s :
  (forall c, head (list_ascii_of_string (lstrip s)) = Some c -> ¬ is_whitespace c)
  /\ exists l, blank l /\ s = l +:+ lstrip s.
Proof.
  induction s as [|c s [IHh (l & Hl & IH)]]; simpl.
  - split; [done|]. exists "". split; [constructor | done].
  - destruct (is_space c) eqn:Hc.
    + split; [done|]. exists (String c l). split.
      * constructor; [by apply is_space_true | done].
      * change (String c s = String c (l +:+ lstrip s)). by f_equal.
    + split.
      * simpl. intros c' [= <-]. by apply is_space_false.
      * exists "". split; [constructor | done].
Qed.

Lemma rstrip_spec s :
  (forall c, last (list_ascii_of_string (rstrip s)) = Some c -> ¬ is_whitespace c)
  /\ (forall c, head (list_ascii_of_string (rstrip s)) = Some c ->
      head (list_ascii_of_string s) = Some c)
  /\ exists r, blank r /\ s = rstrip s +:+ r.
Proof.
  induction s as [|c s (IHl & _ & r & Hr & IH)]; simpl.
  - split; [done|]. split; [done|]. exists "". split; [constructor | done].
  - destruct (rstrip s) as [|c' s'] eqn:Hs.
    + destruct (is_space c) eqn:Hc; simpl.
      * split; [done|]. split; [done|]. exists (String c r). split.
        -- constructor; [by apply is_space_true | done].
        -- exact (f_equal (String c) IH).
      * split; [intros c0 [= <-]; by apply is_space_false|]. split; [done|].
        exists r. split; [done|]. exact (f_equal (String c) IH).
    + split; [exact IHl|]. split; [done|].
      exists r. split; [done|]. exact (f_equal (String c) IH).
Qed.

Lemma strip_trimmed token : trimmed token (strip token).
Proof.
  unfold strip.
  destruct (lstrip_spec token) as (Hhead & l & Hl & Htoken).
  destruct (rstrip_spec (lstrip token)) as (Hlast & Hkeep & r & Hr & Hstrip).
  split; [split|].
  - intros c Hc. by apply Hhead, Hkeep.
  - exact Hlast.
  - exists l, r. split; [done|]. split; [done|]. by rewrite <- Hstrip.
Qed.

Lemma split_not_nil sep s : split sep s <> [].
Proof.
  destruct s as [|c s]; simpl; [done|].
  destruct (Ascii.eqb c sep); [done|]. by destruct (split sep s).
Qed.

Lemma join_cons sep x y l : join sep (x :: y :: l) = x +:+ sep +:+ join sep (y :: l).
Proof. reflexivity. Qed.

Lemma split_join sep s : join (String sep "") (split sep s) = s.
Proof.
  induction s as [|c s IH]; simpl; [done|].
  pose proof (split_not_nil sep s) as Hne.
  destruct (Ascii.eqb_spec c sep) as [->|Hc].
  - destruct (split sep s) as [|w ws]; [done|]. rewrite join_cons, IH. reflexivity.
  - destruct (split sep s) as [|w ws]; [done|].
    destruct ws as [|w' ws]; simpl in *; by rewrite <- IH.
Qed.

Lemma split_no_separator sep s :
  Forall (fun token => sep ∉ list_ascii_of_string token) (split sep s).
Proof.
  induction s as [|c s IH]; simpl.
  - constructor; [apply not_elem_of_nil | constructor].
  - destruct (Ascii.eqb_spec c sep) as [->|Hc].
    + constructor; [apply not_elem_of_nil | done].
    + destruct (split sep s) as [|w ws]; simpl.
      * constructor; [|done]. intros [?|[]%elem_of_nil]%elem_of_cons. congruence.
      * apply Forall_cons in IH as [Hw Hws]. constructor; [|done].
        simpl. intros [?|?]%elem_of_cons; [congruence | done].
Qed.

Lemma split_strip_tokens s :
  comma_split s (split "," s) /\ Forall2 trimmed (split "," s) (map strip (split "," s)).
Proof.
  split; [split; [apply split_not_nil | split; [apply split_join | apply split_no_separator]]|].
  induction (split "," s) as [|token tokens IH]; simpl; constructor;
    [apply strip_trimmed | done].
Qed.

(** C8: after an accepted update the record holds the merged attributes.
    If they contain [supportAttributes], its capabilities are that text
    cut at its commas (the pieces, joined by commas, give the text back,
    and no piece holds a comma), each piece without the whitespace at its
    two ends and otherwise as it is, in order.  If they do not, the
    capabilities are those the record had (none for a new record). *)
Theorem capabilities_follow_supportAttributes now fs_ok mac sd st st' :
  update_device now fs_ok mac sd st = (Ret true, st') ->
  exists d',
    _devices st' !! upper mac = Some d'
    /\ attributes d' = merged_attributes (current_device now (upper mac) st) sd
    /\ match dict_get (KStr "supportAttributes") (attributes d') with
       | Some v =>
           exists s tokens,
             v = PyStr s
             /\ comma_split s tokens
             /\ Forall2 trimmed tokens (capabilities d')
       | None => capabilities d' = capabilities (current_device now (upper mac) st)
       end.
Proof.
  intros E.
  destruct (update_device_accepted _ _ _ _ _ _ E) as (caps & _ & _ & _ & Hcaps & Hd & _).
  eexists. rewrite Hd, lookup_insert_eq. split; [reflexivity|]. split; [reflexivity|].
  cbn [attributes capabilities].
  destruct (dict_get (KStr "supportAttributes") _) as [v|]; [|exact Hcaps].
  destruct Hcaps as (s & -> & ->).
  exists s, (split "," s). split; [reflexivity|]. apply split_strip_tokens.
Qed.

Lemma capabilities_follow_supportAttributes_witness :
  exists d' tokens,
    _devices (update_device 5 true "b0:ce" spaced_capability_status empty_storage).2
      !! "B0:CE" = Some d'
    /\ capabilities d' = ["brightness"; "switch"; "color"]
    /\ comma_split spaced_capability_text tokens
    /\ Forall2 trimmed tokens (capabilities d').
Proof.
  destruct (capabilities_follow_supportAttributes 5 true "b0:ce" spaced_capability_status
              empty_storage
              (update_device 5 true "b0:ce" spaced_capability_status empty_storage).2)
    as (d' & Hd & Ha & Hc).
  - vm_compute. reflexivity.
  - assert (Hget : dict_get (KStr "supportAttributes")
                     (merged_attributes (current_device 5 (upper "b0:ce") empty_storage)
                        spaced_capability_status)
                   = Some (PyStr spaced_capability_text)) by (vm_compute; reflexivity).
    rewrite Ha, Hget in Hc. destruct Hc as (s & tokens & [= <-] & Hsplit & Htrim).
    assert (Hcaps : capabilities d' = ["brightness"; "switch"; "color"]).
    { assert (Hd' : _devices (update_device 5 true "b0:ce" spaced_capability_status
                                empty_storage).2 !! upper "b0:ce"
                    = Some (Device "B0:CE" 5 5 ["brightness"; "switch"; "color"]
                              [(KStr "supportAttributes", PyStr spaced_capability_text)]))
        by (vm_compute; reflexivity).
      rewrite Hd' in Hd. by injection Hd as <-. }
    exists d', tokens. split; [exact Hd|]. split; [exact Hcaps|]. by split.
Defined.

(** ** Persistence failure *)

(** C9: when the persistence step of an update fails, the call still
    returns [True] (nothing is raised), the mapping holds the record with
    the merged attributes and the new [last_seen], and the snapshot file
    is the one from before the call. *)
Theorem failed_persistence_keeps_update now fs_ok mac sd st r st' :
  update_device now fs_ok mac sd st = (r, st') ->
  persistence_failed st st' ->
  r = Ret true
  /\ (exists d',
        _devices st' !! upper mac = Some d'
        /\ last_seen d' = now
        /\ attributes d' = merged_attributes (current_device now (upper mac) st) sd)
  /\ devices_file st' = devices_file st.
Proof.
  intros E [e He].
  pose proof (update_device_outcome now fs_ok mac sd st) as O. rewrite E in O.
  inversion O as [ ? | ? ? ? | cur merged ? ? ? ? | v cur merged ? ? ? ? ?
                 | caps cur merged ? ? ? ? final m ]; subst.
  - rewrite (emitted_app _ _ [(WARNING, Cannot_update_device_without_MAC)]) in He by done.
    apply list_elem_of_singleton in He. discriminate.
  - rewrite (emitted_app _ _ [(WARNING, Device_limit_reached (upper mac))]) in He by done.
    apply list_elem_of_singleton in He. discriminate.
  - rewrite (emitted_app _ _ [(WARNING, Device_data_too_large (upper mac) (json_size merged))])
      in He by done.
    apply list_elem_of_singleton in He. discriminate.
  - rewrite (emitted_app _ _ []) in He by done. by apply elem_of_nil in He.
  - destruct fs_ok.
    + rewrite (emitted_app _ _
                 [(INFO, Updated_device (upper mac) (length (default [] (status_attributes sd))));
                  (DEBUG, Saved_devices (size m))]) in He by done.
      apply elem_of_cons in He as [He|He]; [discriminate|].
      apply list_elem_of_singleton in He. discriminate.
    + split; [reflexivity|]. split; [|reflexivity].
      eexists. simpl. subst m. rewrite lookup_insert_eq. by subst final.
Qed.

Lemma failed_persistence_keeps_update_witness :
  (update_device 20 false "aa:bb" capability_status one_device_storage).1 = Ret true
  /\ attributes <$>
       (_devices (update_device 20 false "aa:bb" capability_status one_device_storage).2
          !! "AA:BB")
     = Some [(KStr "supportAttributes", PyStr "brightness, switch,color")]
  /\ devices_file (update_device 20 false "aa:bb" capability_status one_device_storage).2
     = Some one_device.
Proof.
  destruct (failed_persistence_keeps_update 20 false "aa:bb" capability_status
              one_device_storage
              (update_device 20 false "aa:bb" capability_status one_device_storage).1
              (update_device 20 false "aa:bb" capability_status one_device_storage).2)
    as (Hr & (d' & Hd & Ht & Ha) & Hf).
  - by destruct (update_device 20 false "aa:bb" capability_status one_device_storage).
  - exists OSError. vm_compute. apply list_elem_of_further, list_elem_of_here.
  - split; [exact Hr|]. split; [|exact Hf].
    change (upper "aa:bb") with "AA:BB" in Hd. rewrite Hd. simpl. by rewrite Ha.
Defined.

(** ** The ceiling on the number of devices *)

(** The change of the mapping by one call: none, or one record written
    under the canonical key, which the capacity check let through. *)
Lemma update_device_devices now fs_ok mac sd st :
  let m' := _devices (update_device now fs_ok mac sd st).2 in
  m' = _devices st
  \/ exists d,
      m' = <[upper mac := d]> (_devices st)
      /\ has_room (upper mac) st
      /\ device_mac d = device_mac (current_device now (upper mac) st).
Proof.
  pose proof (update_device_outcome now fs_ok mac sd st) as O.
  destruct (update_device now fs_ok mac sd st) as [r st'].
  inversion O as [ ? | ? ? ? | cur merged ? Hroom ? ? | v cur merged ? Hroom ? ? ?
                 | caps cur merged ? Hroom ? ? final m ]; subst; simpl.
  - by left.
  - by left.
  - unfold written_through. destruct (_devices st !! upper mac); [right|by left].
    eexists. by repeat split.
  - unfold written_through. destruct (_devices st !! upper mac); [right|by left].
    eexists. by repeat split.
  - right. eexists. by repeat split.
Qed.

Lemma update_device_size now fs_ok mac sd st :
  Z.of_nat (size (_devices st)) <= MAX_DEVICES ->
  Z.of_nat (size (_devices (update_device now fs_ok mac sd st).2)) <= MAX_DEVICES.
Proof.
  intros Hsize.
  destruct (update_device_devices now fs_ok mac sd st) as [->|(d & -> & Hroom & _)];
    [done|].
  rewrite map_size_insert.
  destruct Hroom as [[d0 ->]|Hroom]; [done|].
  destruct (_devices st !! upper mac); unfold id; lia.
Qed.

Lemma run_updates_size calls st :
  Z.of_nat (size (_devices st)) <= MAX_DEVICES ->
  Z.of_nat (size (_devices (run_updates calls st))) <= MAX_DEVICES.
Proof.
  revert st. induction calls as [|c calls IH]; intros st Hsize; [done|].
  apply IH, update_device_size, Hsize.
Qed.

(** C2: from the empty store, after any sequence of [update_device]
    calls the mapping holds at most [MAX_DEVICES] identifiers; when it
    holds exactly that many, an update under a key not in it (after
    [upper]) returns [False] and leaves mapping and snapshot as they were,
    while an update of a key in it is accepted whenever the size check
    and the capability step let it through, without changing the keys. *)
Theorem device_count_never_exceeds_MAX_DEVICES calls :
  let st := run_updates calls empty_storage in
  Z.of_nat (size (_devices st)) <= MAX_DEVICES
  /\ (Z.of_nat (size (_devices st)) = MAX_DEVICES ->
      (forall now fs_ok mac sd,
          _devices st !! upper mac = None ->
          exists st',
            update_device now fs_ok mac sd st = (Ret false, st')
            /\ _devices st' = _devices st
            /\ devices_file st' = devices_file st)
      /\ (forall now fs_ok mac sd d,
          mac <> "" ->
          _devices st !! upper mac = Some d ->
          fits (merged_attributes d sd) sd ->
          (forall v, dict_get (KStr "supportAttributes") (merged_attributes d sd) = Some v ->
                     exists s, v = PyStr s) ->
          exists st',
            update_device now fs_ok mac sd st = (Ret true, st')
            /\ dom (_devices st') = dom (_devices st)
            /\ exists d',
                _devices st' !! upper mac = Some d'
                /\ attributes d' = merged_attributes d sd
                /\ last_seen d' = now)).
Proof.
  intros st. split.
  { apply run_updates_size. vm_compute. discriminate. }
  intros Hfull. split.
  - intros now fs_ok mac sd Hnone.
    pose proof (update_device_outcome now fs_ok mac sd st) as O.
    destruct (update_device now fs_ok mac sd st) as [r st'].
    assert (Hroom : ¬ has_room (upper mac) st).
    { intros [[d Hd]|Hlt]; [congruence | lia]. }
    inversion O; subst; try done; eauto.
  - intros now fs_ok mac sd d Hmac Hd Hfits Hcaps.
    assert (Hcur : current_device now (upper mac) st = d)
      by (by apply current_device_stored).
    destruct (update_device_accepts now fs_ok mac sd st) as [st' E].
    + done.
    + left. eauto.
    + by rewrite Hcur.
    + by rewrite Hcur.
    + exists st'. split; [done|].
      destruct (update_device_accepted _ _ _ _ _ _ E) as (caps & _ & _ & _ & _ & Hm & _).
      rewrite Hcur in Hm. rewrite Hm. split.
      * rewrite dom_insert_L. apply elem_of_dom_2 in Hd.
        by apply subseteq_union_1_L, singleton_subseteq_l.
      * eexists. rewrite lookup_insert_eq. by repeat split.
Qed.

Lemma full_storage_size : Z.of_nat (size (_devices full_storage)) = MAX_DEVICES.
Proof. vm_compute. reflexivity. Qed.

Lemma device_count_never_exceeds_MAX_DEVICES_witness :
  Z.of_nat (size (_devices full_storage)) = MAX_DEVICES
  /\ (exists st',
        update_device 1 true "newcomer" empty_status full_storage = (Ret false, st')
        /\ _devices st' = _devices full_storage)
  /\ (exists st',
        update_device 1 true "dev7" empty_status full_storage = (Ret true, st')
        /\ dom (_devices st') = dom (_devices full_storage)).
Proof.
  pose proof (device_count_never_exceeds_MAX_DEVICES full_calls) as H.
  cbv zeta in H. destruct H as [_ Hceil].
  specialize (Hceil full_storage_size). destruct Hceil as [Hnew Hold].
  split; [exact full_storage_size|]. split.
  - assert (H : _devices full_storage !! upper "newcomer" = None)
      by (vm_compute; reflexivity).
    destruct (Hnew 1 true "newcomer" empty_status H) as (st' & E & Hd & _).
    exists st'. split; [exact E | exact Hd].
  - assert (H : _devices full_storage !! upper "dev7" = Some (Device "DEV7" 7 7 [] []))
      by (vm_compute; reflexivity).
    assert (Hmac : "dev7" <> "") by discriminate.
    assert (Hfit : fits (merged_attributes (Device "DEV7" 7 7 [] []) empty_status)
                     empty_status)
      by (left; vm_compute; discriminate).
    assert (Hcaps : forall v,
               dict_get (KStr "supportAttributes")
                 (merged_attributes (Device "DEV7" 7 7 [] []) empty_status) = Some v ->
               exists s, v = PyStr s)
      by (intros v Hv; vm_compute in Hv; discriminate).
    destruct (Hold 1 true "dev7" empty_status _ Hmac H Hfit Hcaps) as (st' & E & Hdom & _).
    exists st'. split; [exact E | exact Hdom].
Defined.

(** ** Dictionaries as finite maps *)

Lemma key_eqb_class a b : key_eqb a b = true <-> key_class a = key_class b.
Proof.
  destruct a as [|x|x|x], b as [|y|y|y]; cbn [key_eqb key_class];
    rewrite ?Z.eqb_eq, ?String.eqb_eq;
    try (split; intros H; [discriminate H || by subst | discriminate H || by injection H]).
  - done.
  - destruct x, y; split; intros H; done.
Qed.

Lemma key_eqb_refl k : key_eqb k k = true.
Proof. by apply key_eqb_class. Qed.

Lemma key_eqb_congr a b c : key_eqb a b = true -> key_eqb a c = key_eqb b c.
Proof.
  intros H%key_eqb_class.
  destruct (key_eqb a c) eqn:Hac, (key_eqb b c) eqn:Hbc; try reflexivity.
  - apply key_eqb_class in Hac. rewrite H in Hac. apply key_eqb_class in Hac. congruence.
  - apply key_eqb_class in Hbc. rewrite <- H in Hbc. apply key_eqb_class in Hbc. congruence.
Qed.

Lemma key_eqb_sym a b : key_eqb a b = key_eqb b a.
Proof.
  destruct (key_eqb a b) eqn:Hab, (key_eqb b a) eqn:Hba; try reflexivity.
  - apply key_eqb_class in Hab. symmetry in Hab. apply key_eqb_class in Hab. congruence.
  - apply key_eqb_class in Hba. symmetry in Hba. apply key_eqb_class in Hba. congruence.
Qed.

Arguments dict_get : simpl nomatch.

Lemma dict_get_set k k' v d :
  dict_get k (dict_set k' v d) = if key_eqb k' k then Some v else dict_get k d.
Proof.
  induction d as [|[k0 v0] d IH]; simpl.
  - unfold dict_get. by destruct (key_eqb k' k).
  - destruct (key_eqb k0 k') eqn:H0; unfold dict_get; fold dict_get.
    + rewrite (key_eqb_congr _ _ k H0). by destruct (key_eqb k' k).
    + rewrite IH. destruct (key_eqb k0 k) eqn:H1; [|done].
      destruct (key_eqb k' k) eqn:H2; [|done].
      apply key_eqb_class in H1, H2.
      assert (key_eqb k0 k' = true) by (apply key_eqb_class; congruence).
      congruence.
Qed.

Lemma dict_get_update k d l :
  dict_get k (dict_update d l)
  = match dict_last k l with Some v => Some v | None => dict_get k d end.
Proof.
  unfold dict_update. revert d.
  induction l as [|[k0 v0] l IH]; intros d; simpl; [done|].
  rewrite IH. destruct (dict_last k l); [done|].
  rewrite dict_get_set. by destruct (key_eqb k0 k).
Qed.

Lemma dict_replace_same k k' v v' d :
  key_eqb k k' = true ->
  dict_replace k v (dict_replace k' v' d) = dict_replace k v d.
Proof.
  intros Hk. induction d as [|[k0 v0] d IH]; simpl; [done|].
  assert (Hc : key_eqb k0 k = key_eqb k0 k').
  { rewrite (key_eqb_sym k0 k), (key_eqb_sym k0 k'). by apply key_eqb_congr. }
  rewrite <- Hc. destruct (key_eqb k0 k) eqn:H0; simpl; rewrite H0; [done|].
  by rewrite IH.
Qed.

Lemma dict_replace_comm k k' v v' d :
  key_eqb k k' = false ->
  dict_replace k v (dict_replace k' v' d) = dict_replace k' v' (dict_replace k v d).
Proof.
  intros Hk. induction d as [|[k0 v0] d IH]; simpl; [done|].
  destruct (key_eqb k0 k') eqn:H1, (key_eqb k0 k) eqn:H0; simpl; rewrite ?H0, ?H1; try done.
  - apply key_eqb_class in H0, H1.
    assert (key_eqb k k' = true) by (apply key_eqb_class; congruence). congruence.
  - by rewrite IH.
Qed.

Lemma dict_replace_id k v d : dict_get k d = Some v -> dict_replace k v d = d.
Proof.
  induction d as [|[k0 v0] d IH]; simpl; [done|].
  unfold dict_get; fold dict_get.
  destruct (key_eqb k0 k); [by intros [= ->]|]. intros H. by rewrite IH.
Qed.

Lemma dict_set_present k v d :
  is_Some (dict_get k d) -> dict_set k v d = dict_replace k v d.
Proof.
  induction d as [|[k0 v0] d IH]; simpl.
  - by intros [x Hx].
  - unfold dict_get; fold dict_get. destruct (key_eqb k0 k); [done|].
    intros H. by rewrite IH.
Qed.

Lemma dict_get_replace k k' v d :
  is_Some (dict_get k d) -> is_Some (dict_get k (dict_replace k' v d)).
Proof.
  induction d as [|[k0 v0] d IH]; simpl; [done|].
  unfold dict_get; fold dict_get.
  destruct (key_eqb k0 k') eqn:H1; unfold dict_get; fold dict_get;
    destruct (key_eqb k0 k); eauto.
Qed.

(** Replacements whose values the dictionary already has, last one per
    key, change nothing. *)
Lemma fold_replace_push l k v d :
  fold_left (fun acc kv => dict_replace kv.1 kv.2 acc) l (dict_replace k v d)
  = match dict_last k l with
    | Some _ => fold_left (fun acc kv => dict_replace kv.1 kv.2 acc) l d
    | None => dict_replace k v (fold_left (fun acc kv => dict_replace kv.1 kv.2 acc) l d)
    end.
Proof.
  revert d. induction l as [|[k1 v1] l IH]; intros d; simpl; [done|].
  destruct (key_eqb k1 k) eqn:H1.
  - rewrite dict_replace_same by done. by destruct (dict_last k l).
  - rewrite dict_replace_comm by done. rewrite IH. by destruct (dict_last k l).
Qed.

Lemma fold_replace_id l d :
  (forall k v, dict_last k l = Some v -> dict_get k d = Some v) ->
  fold_left (fun acc kv => dict_replace kv.1 kv.2 acc) l d = d.
Proof.
  induction l as [|[k0 v0] l IH]; intros H; simpl; [done|].
  assert (Hl : forall k v, dict_last k l = Some v -> dict_get k d = Some v).
  { intros k v Hk. apply H. simpl. by rewrite Hk. }
  rewrite fold_replace_push, (IH Hl).
  destruct (dict_last k0 l) eqn:H0; [done|].
  apply dict_replace_id, H. simpl. by rewrite H0, key_eqb_refl.
Qed.

Lemma fold_set_present l d :
  (forall k v, (k, v) ∈ l -> is_Some (dict_get k d)) ->
  fold_left (fun acc kv => dict_set kv.1 kv.2 acc) l d
  = fold_left (fun acc kv => dict_replace kv.1 kv.2 acc) l d.
Proof.
  revert d. induction l as [|[k0 v0] l IH]; intros d H; simpl; [done|].
  rewrite dict_set_present by (eapply H, list_elem_of_here).
  apply IH. intros k v Hin. apply dict_get_replace. eapply H, list_elem_of_further, Hin.
Qed.

Lemma dict_last_elem_of k v l : (k, v) ∈ l -> is_Some (dict_last k l).
Proof.
  induction l as [|[k0 v0] l IH]; intros Hin; [by apply elem_of_nil in Hin|].
  simpl. apply elem_of_cons in Hin as [[= <- <-]|Hin].
  - rewrite key_eqb_refl. destruct (dict_last k l); eauto.
  - destruct (IH Hin) as [x ->]. eauto.
Qed.

(** Merging the same attributes a second time changes nothing. *)
Lemma dict_update_idem d l : dict_update (dict_update d l) l = dict_update d l.
Proof.
  unfold dict_update at 1.
  rewrite fold_set_present.
  - apply fold_replace_id. intros k v Hk. by rewrite dict_get_update, Hk.
  - intros k v Hin. rewrite dict_get_update.
    destruct (dict_last_elem_of _ _ _ Hin) as [x ->]. eauto.
Qed.

(** ** Idempotence *)

Lemma merged_attributes_idem cur sd mac' t1 t2 caps :
  merged_attributes (Device mac' t1 t2 caps (merged_attributes cur sd)) sd
  = merged_attributes cur sd.
Proof.
  unfold merged_attributes. simpl.
  destruct (status_attributes sd); [apply dict_update_idem | done].
Qed.

(** C7: when an update is accepted, the same update applied again at once
    is accepted too, and the mapping it leaves is the one after the first
    application with only [last_seen] of that record set anew; the
    snapshot is rewritten to that mapping when the write succeeds and is
    left as it was when it fails. *)
Theorem repeated_update_changes_only_last_seen now1 ok1 now2 ok2 mac sd st st1 :
  update_device now1 ok1 mac sd st = (Ret true, st1) ->
  exists st2 d1,
    update_device now2 ok2 mac sd st1 = (Ret true, st2)
    /\ _devices st1 !! upper mac = Some d1
    /\ _devices st2 = <[upper mac := set_last_seen now2 d1]> (_devices st1)
    /\ devices_file st2 = (if ok2 then Some (_devices st2) else devices_file st1).
Proof.
  intros E.
  destruct (update_device_accepted _ _ _ _ _ _ E)
    as (caps1 & Hmac & _ & Hfit & Hcaps1 & Hm1 & _).
  set (cur := current_device now1 (upper mac) st) in *.
  set (d1 := Device (device_mac cur) (first_seen cur) now1 caps1 (merged_attributes cur sd))
    in *.
  assert (Hd1 : _devices st1 !! upper mac = Some d1) by (by rewrite Hm1, lookup_insert_eq).
  assert (Hcur2 : current_device now2 (upper mac) st1 = d1)
    by (by apply current_device_stored).
  assert (Hmerged : merged_attributes d1 sd = merged_attributes cur sd)
    by apply merged_attributes_idem.
  destruct (update_device_accepts now2 ok2 mac sd st1) as [st2 E2].
  - done.
  - left. eauto.
  - by rewrite Hcur2, Hmerged.
  - rewrite Hcur2, Hmerged. intros v Hv. rewrite Hv in Hcaps1.
    destruct Hcaps1 as (s & -> & _). eauto.
  - exists st2, d1. split; [done|]. split; [done|].
    destruct (update_device_accepted _ _ _ _ _ _ E2)
      as (caps2 & _ & _ & _ & Hcaps2 & Hm2 & Hf2 & _).
    rewrite Hcur2, Hmerged in Hcaps2, Hm2.
    assert (caps2 = caps1) as ->.
    { destruct (dict_get (KStr "supportAttributes") (merged_attributes cur sd)).
      - destruct Hcaps1 as (s1 & -> & ->), Hcaps2 as (s2 & [= <-] & ->). done.
      - by rewrite Hcaps2. }
    split; [exact Hm2 | exact Hf2].
Qed.

Lemma repeated_update_changes_only_last_seen_witness :
  exists st2,
    update_device 30 false "aa:bb" capability_status
      (update_device 20 true "aa:bb" capability_status one_device_storage).2
    = (Ret true, st2)
    /\ _devices st2
       = {[ "AA:BB" :=
              Device "AA:BB" 11 30 ["brightness"; "switch"; "color"]
                [(KStr "supportAttributes", PyStr "brightness, switch,color")] ]}.
Proof.
  destruct (repeated_update_changes_only_last_seen 20 true 30 false "aa:bb"
              capability_status one_device_storage
              (update_device 20 true "aa:bb" capability_status one_device_storage).2)
    as (st2 & d1 & E2 & Hd1 & Hm & _).
  - vm_compute. reflexivity.
  - exists st2. split; [exact E2|]. rewrite Hm.
    vm_compute in Hd1. injection Hd1 as <-. vm_compute. reflexivity.
Defined.

(** ** The status parser *)

Lemma parse_items_total items mac pd st :
  (exists r, parse_items items mac pd st = (Ret r, st))
  \/ parse_items items mac pd st = (Raise TypeError, st).
Proof.
  revert mac pd. induction items as [|item items IH]; intros mac pd; simpl.
  - left. by eexists.
  - destruct item; try apply IH.
    destruct (truthy _ && negb _); [|apply IH].
    unfold setitem, bind. destruct (as_key _); simpl; [apply IH | by right].
Qed.

Lemma parse_items_hashable items mac pd st :
  hashable_types items ->
  parse_items items mac pd st
  = (Ret (first_dn mac items, dict_update pd (entries_of items)), st).
Proof.
  revert mac pd. induction items as [|item items IH]; intros mac pd H; [done|].
  apply Forall_cons in H as [Hitem H].
  destruct item; simpl; try (by apply IH).
  unfold entries_of. simpl.
  destruct (truthy _ && negb _); [|by apply IH].
  destruct Hitem as [k Hk]. unfold setitem, bind. rewrite Hk. simpl.
  by rewrite IH.
Qed.

(** When the decoder returns a value or raises [JSONDecodeError], the
    parser returns and touches neither the mapping nor the snapshot; what
    it returns is [None] when the payload is not valid JSON, decodes to
    something that is not a list, or decodes to the empty list. *)
Lemma parse_status_message_returns json_loads now payload st :
  (exists v, json_loads payload = Ret v) \/ json_loads payload = Raise JSONDecodeError ->
  exists r,
    (parse_status_message json_loads now payload st).1 = Ret r
    /\ _devices (parse_status_message json_loads now payload st).2 = _devices st
    /\ devices_file (parse_status_message json_loads now payload st).2 = devices_file st
    /\ (json_loads payload = Raise JSONDecodeError -> r = None)
    /\ (forall v, json_loads payload = Ret v -> isinstance_list v = false -> r = None)
    /\ (json_loads payload = Ret (PyList []) -> r = None).
Proof.
  unfold parse_status_message, loads, try_except, bind.
  intros [[v ->]| ->]; simpl.
  2:{ exists None. by repeat split. }
  destruct v as [| | | |l|]; try (simpl; exists None; by repeat split).
  destruct l as [|item l]; [simpl; exists None; by repeat split|].
  cbn -[parse_items].
  destruct (parse_items_total (item :: l) PyNone [] st) as [[r ->]| ->]; simpl.
  - eexists. repeat split; try done. by intros v [= <-].
  - exists None. by repeat split.
Qed.

(** C5, as the code has it: the [except] clause of line 107 names
    [JSONDecodeError], [KeyError] and [TypeError] only, so when
    [json.loads] raises [RecursionError] or [ValueError] the parser does
    not return [None]: the exception leaves [parse_status_message], with
    the store as it was and nothing logged. *)
Theorem parse_status_message_raises_past_boundary json_loads now payload e st :
  json_loads payload = Raise e ->
  e = RecursionError \/ e = ValueError ->
  parse_status_message json_loads now payload st = (Raise e, st).
Proof.
  intros Hload He.
  unfold parse_status_message, loads, try_except, bind. rewrite Hload.
  by destruct He as [-> | ->].
Qed.

Lemma parse_status_message_raises_past_boundary_witness :
  parse_status_message (raises_on deep_brackets RecursionError) 7 deep_brackets
    empty_storage
  = (Raise RecursionError, empty_storage).
Proof.
  assert (H : raises_on deep_brackets RecursionError deep_brackets = Raise RecursionError)
    by (vm_compute; reflexivity).
  exact (parse_status_message_raises_past_boundary _ 7 _ RecursionError empty_storage H
           (or_introl eq_refl)).
Defined.

Lemma dict_set_classes k v d c :
  c ∈ key_class <$> (dict_set k v d).*1 -> c ∈ key_class <$> d.*1 \/ c = key_class k.
Proof.
  induction d as [|[k0 v0] d IH]; simpl.
  - intros H%list_elem_of_singleton. by right.
  - destruct (key_eqb k0 k); simpl; [by left|].
    intros [->|H]%elem_of_cons; [left; apply list_elem_of_here|].
    destruct (IH H); [left; by apply list_elem_of_further | by right].
Qed.

Lemma dict_set_distinct k v d : distinct_keys d -> distinct_keys (dict_set k v d).
Proof.
  unfold distinct_keys. induction d as [|[k0 v0] d IH]; simpl.
  - intros _. apply NoDup_singleton.
  - intros [Hnot Hd]%NoDup_cons. destruct (key_eqb k0 k) eqn:H0; simpl.
    + by apply NoDup_cons.
    + apply NoDup_cons. split; [|by apply IH].
      intros [H|H]%dict_set_classes; [done|].
      apply key_eqb_class in H. congruence.
Qed.

Lemma dict_update_distinct d l : distinct_keys d -> distinct_keys (dict_update d l).
Proof.
  unfold dict_update. revert d. induction l as [|[k v] l IH]; intros d H; [done|].
  simpl. by apply IH, dict_set_distinct.
Qed.

(** C6, as the code has it: for a payload that decodes to a non-empty
    list whose records have hashable types, the parser returns the
    attributes in which every key holds the value, as decoded and not
    turned into text, of the last record that is a dict with a truthy
    [type] equal to that key and a [value] other than [None]; no key
    occurs twice; records that are not dicts add nothing and stop nothing. *)
Theorem parsed_attributes_are_last_values json_loads now payload items st :
  json_loads payload = Ret (PyList items) ->
  items <> [] ->
  hashable_types items ->
  exists attrs,
    parse_status_message json_loads now payload st
    = (Ret (Some (Status (first_dn PyNone items) (Some attrs) now)), st)
    /\ (forall k, dict_get k attrs = dict_last k (entries_of items))
    /\ distinct_keys attrs.
Proof.
  intros Hload Hne Hhash.
  exists (dict_update [] (entries_of items)). split; [|split].
  - unfold parse_status_message, loads, try_except, bind. rewrite Hload. simpl.
    destruct items as [|item items]; [done|]. cbn -[parse_items].
    by rewrite parse_items_hashable.
  - intros k. rewrite dict_get_update. by destruct (dict_last k (entries_of items)).
  - apply dict_update_distinct, NoDup_nil_2.
Qed.

Lemma parsed_attributes_are_last_values_witness :
  exists attrs,
    parse_status_message (loads_only mixed_document) 7 (json_dumps mixed_document)
      empty_storage
    = (Ret (Some (Status (PyStr "AA") (Some attrs) 7)), empty_storage)
    /\ dict_get (KStr "switch") attrs = Some (PyStr "1")
    /\ dict_get (KStr "brightness") attrs = Some (PyInt 25)
    /\ dict_get (KStr "junk") attrs = None.
Proof.
  destruct (parsed_attributes_are_last_values (loads_only mixed_document) 7
              (json_dumps mixed_document)
              [PyStr "junk";
               PyDict [(KStr "dn", PyStr "AA"); (KStr "type", PyStr "switch");
                       (KStr "value", PyStr "0")];
               PyDict [(KStr "type", PyStr "switch"); (KStr "value", PyStr "1")];
               PyDict [(KStr "type", PyStr "brightness"); (KStr "value", PyInt 25)]]
              empty_storage)
    as (attrs & E & Hget & _).
  - vm_compute. reflexivity.
  - discriminate.
  - repeat constructor; vm_compute; eauto.
  - exists attrs. split; [exact E|]. rewrite !Hget. by vm_compute.
Defined.

(** A record whose [type] is a list ends the parse: the assignment raises
    [TypeError], which the parser catches, and the records before it are lost. *)
Lemma unhashable_type_ends_parse :
  parse_status_message (loads_only unhashable_document) 7 (json_dumps unhashable_document)
    empty_storage
  = (Ret None,
     with_log (WARNING, Failed_to_parse_status_message TypeError) empty_storage).
Proof. vm_compute. reflexivity. Qed.

(** C6 as the claim states it fails: the number 25 stays a number. *)
Lemma parser_does_not_stringify :
  exists attrs,
    (parse_status_message (loads_only int_value_document) 7
       (json_dumps int_value_document) empty_storage).1
    = Ret (Some (Status PyNone (Some attrs) 7))
    /\ dict_get (KStr "brightness") attrs = Some (PyInt 25)
    /\ dict_get (KStr "brightness") attrs <> Some (PyStr "25").
Proof.
  exists [(KStr "brightness", PyInt 25)]. split; [by vm_compute|].
  split; [by vm_compute|]. vm_compute. discriminate.
Qed.

(** ** The ingestion path *)

Lemma parse_status_message_some json_loads now payload st parsed st1 :
  parse_status_message json_loads now payload st = (Ret (Some parsed), st1) -> st1 = st.
Proof.
  unfold parse_status_message, loads, try_except, bind.
  destruct (json_loads payload) as [v|e]; simpl; [|destruct e; by intros [= ]].
  destruct v as [| | | |l|]; try (simpl; by intros [= ]).
  destruct l as [|item l]; [simpl; by intros [= ]|].
  cbn -[parse_items].
  destruct (parse_items_total (item :: l) PyNone [] st) as [[r ->]| ->]; simpl.
  - by intros [= _ <-].
  - by intros [= ].
Qed.

Lemma process_status_message json_loads t_parse t_update fs_ok topic payload st parsed st1 :
  status_topic topic ->
  parse_status_message json_loads t_parse payload st = (Ret (Some parsed), st1) ->
  process_mqtt_message json_loads t_parse t_update fs_ok topic payload st
  = if (length (default [] (status_attributes parsed)) <? 5)%nat then
      (Ret false,
       with_log (DEBUG, Skipping_short_status_message (topic_mac topic)
                          (length (default [] (status_attributes parsed)))) st)
    else
      try_except (update_device t_update fs_ok (topic_mac topic) parsed)
        any_exception (on_error topic) st.
Proof.
  intros (Hlen & Hns & Hty) Hparse.
  pose proof (parse_status_message_some _ _ _ _ _ _ Hparse) as ->.
  unfold process_mqtt_message, topic_mac.
  unfold try_except at 1. unfold bind at 1.
  replace (length (split "/" topic) <? 3)%nat with false
    by (symmetry; apply Nat.ltb_ge; lia).
  rewrite Hns, Hty. cbn [String.eqb Ascii.eqb Bool.eqb negb orb].
  simpl (negb _ || _). cbv iota.
  unfold bind at 1. rewrite Hparse.
  destruct (length (default [] (status_attributes parsed)) <? 5)%nat; [reflexivity|].
  unfold try_except, on_error.
  by destruct (update_device t_update fs_ok (nth 1 (split "/" topic) "") parsed st)
    as [[b|e] st'].
Qed.

(** C4: for a message on a status topic whose payload parses, fewer than
    5 parsed attributes make [process_mqtt_message] return [False] with
    mapping and snapshot untouched; with 5 or more it runs
    [update_device] on the parsed status, under its own exception handler. *)
Theorem comprehensiveness_threshold
    json_loads t_parse t_update fs_ok topic payload st parsed st1 :
  status_topic topic ->
  parse_status_message json_loads t_parse payload st = (Ret (Some parsed), st1) ->
  ((length (default [] (status_attributes parsed)) < 5)%nat ->
   exists st',
     process_mqtt_message json_loads t_parse t_update fs_ok topic payload st
     = (Ret false, st')
     /\ _devices st' = _devices st
     /\ devices_file st' = devices_file st)
  /\ ((5 <= length (default [] (status_attributes parsed)))%nat ->
      process_mqtt_message json_loads t_parse t_update fs_ok topic payload st
      = try_except (update_device t_update fs_ok (topic_mac topic) parsed)
          any_exception (on_error topic) st).
Proof.
  intros Htopic Hparse.
  rewrite (process_status_message _ _ _ _ _ _ _ _ _ Htopic Hparse).
  split; intros Hn.
  - apply Nat.ltb_lt in Hn. rewrite Hn. by eexists.
  - apply Nat.ltb_ge in Hn. by rewrite Hn.
Qed.

Lemma comprehensiveness_threshold_witness :
  (exists st',
      process_mqtt_message (loads_only partial_document) 1 2 true
        "wifielement/B0:CE:18:C3:3A:A2/status" (json_dumps partial_document)
        one_device_storage
      = (Ret false, st')
      /\ _devices st' = one_device /\ devices_file st' = Some one_device)
  /\ process_mqtt_message (loads_only (snapshot_document "B0:CE:18:C3:3A:A2")) 1 2 true
       "wifielement/B0:CE:18:C3:3A:A2/status"
       (json_dumps (snapshot_document "B0:CE:18:C3:3A:A2")) one_device_storage
     = try_except
         (update_device 2 true "B0:CE:18:C3:3A:A2"
            (Status (PyStr "B0:CE:18:C3:3A:A2")
               (Some [(KStr "brightness", PyStr "25"); (KStr "switch", PyStr "1");
                      (KStr "colorTemperature", PyStr "200");
                      (KStr "supportAttributes",
                       PyStr "brightness,switch,colorTemperature");
                      (KStr "online", PyStr "1")]) 1))
         any_exception (on_error "wifielement/B0:CE:18:C3:3A:A2/status")
         one_device_storage.
Proof.
  split.
  - refine (proj1 (comprehensiveness_threshold (loads_only partial_document) 1 2 true
                     "wifielement/B0:CE:18:C3:3A:A2/status" (json_dumps partial_document)
                     one_device_storage
                     (Status (PyStr "B0:CE:18:C3:3A:A2")
                        (Some [(KStr "supportAttributes", PyStr "brightness,switch")]) 1)
                     one_device_storage _ _) _).
    + by vm_compute.
    + vm_compute. reflexivity.
    + simpl. lia.
  - refine (proj2 (comprehensiveness_threshold
                     (loads_only (snapshot_document "B0:CE:18:C3:3A:A2")) 1 2 true
                     "wifielement/B0:CE:18:C3:3A:A2/status"
                     (json_dumps (snapshot_document "B0:CE:18:C3:3A:A2"))
                     one_device_storage _ one_device_storage _ _) _).
    + by vm_compute.
    + vm_compute. reflexivity.
    + simpl. lia.
Defined.

(** C3, as the code has it: for a message that passes the topic filter,
    the parser and the threshold, [update_device] is called with the
    second segment of the topic as identifier; the identifier the parser
    read from [dn] has no part in the call. *)
Theorem update_uses_topic_identifier
    json_loads t_parse t_update fs_ok topic payload st parsed st1 :
  status_topic topic ->
  parse_status_message json_loads t_parse payload st = (Ret (Some parsed), st1) ->
  (5 <= length (default [] (status_attributes parsed)))%nat ->
  process_mqtt_message json_loads t_parse t_update fs_ok topic payload st
  = try_except (update_device t_update fs_ok (topic_mac topic) parsed)
      any_exception (on_error topic) st
  /\ forall dn st0,
      update_device t_update fs_ok (topic_mac topic)
        (Status dn (status_attributes parsed) (status_timestamp parsed)) st0
      = update_device t_update fs_ok (topic_mac topic) parsed st0.
Proof.
  intros Htopic Hparse Hn. split.
  - rewrite (process_status_message _ _ _ _ _ _ _ _ _ Htopic Hparse).
    apply Nat.ltb_ge in Hn. by rewrite Hn.
  - intros dn st0. by destruct parsed.
Qed.

Lemma update_uses_topic_identifier_witness :
  exists d,
    _devices
      (process_mqtt_message (loads_only (snapshot_document "B0:CE:18:C3:3A:A2")) 1 2 true
         "wifielement/b0:ce:18:c3:3a:a2/status"
         (json_dumps (snapshot_document "B0:CE:18:C3:3A:A2")) empty_storage).2
      !! "B0:CE:18:C3:3A:A2" = Some d
    /\ length (attributes d) = 5%nat
    /\ capabilities d = ["brightness"; "switch"; "colorTemperature"].
Proof.
  destruct (update_uses_topic_identifier
              (loads_only (snapshot_document "B0:CE:18:C3:3A:A2")) 1 2 true
              "wifielement/b0:ce:18:c3:3a:a2/status"
              (json_dumps (snapshot_document "B0:CE:18:C3:3A:A2"))
              empty_storage
              (Status (PyStr "B0:CE:18:C3:3A:A2")
                 (Some [(KStr "brightness", PyStr "25"); (KStr "switch", PyStr "1");
                        (KStr "colorTemperature", PyStr "200");
                        (KStr "supportAttributes",
                         PyStr "brightness,switch,colorTemperature");
                        (KStr "online", PyStr "1")]) 1)
              empty_storage) as [E _].
  - by vm_compute.
  - vm_compute. reflexivity.
  - simpl. lia.
  - rewrite E. eexists. split; [vm_compute; reflexivity|]. split; reflexivity.
Defined.

(** C3 as the claim states it fails: the payload names BB:BB, the topic
    AA:AA, and the record is stored under AA:AA; a call with the parsed
    identifier would have stored BB:BB. *)
Lemma identifier_is_not_the_parsed_dn :
  exists parsed,
    (parse_status_message (loads_only (snapshot_document "BB:BB")) 1
       (json_dumps (snapshot_document "BB:BB")) empty_storage).1 = Ret (Some parsed)
    /\ status_mac parsed = PyStr "BB:BB"
    /\ (process_mqtt_message (loads_only (snapshot_document "BB:BB")) 1 2 true
          "wifielement/AA:AA/status" (json_dumps (snapshot_document "BB:BB"))
          empty_storage).1 = Ret true
    /\ dom (_devices
              (process_mqtt_message (loads_only (snapshot_document "BB:BB")) 1 2 true
                 "wifielement/AA:AA/status" (json_dumps (snapshot_document "BB:BB"))
                 empty_storage).2) = {[ "AA:AA" ]}
    /\ dom (_devices (update_device 2 true "BB:BB" parsed empty_storage).2) = {[ "BB:BB" ]}.
Proof.
  eexists. split; [vm_compute; reflexivity|].
  split; [reflexivity|]. split; [vm_compute; reflexivity|].
  split; vm_compute; reflexivity.
Qed.

(** ** The key of a record *)

Lemma keeps_ret {A} (a : A) : keeps_inv (ret a).
Proof. by intros st. Qed.

Lemma keeps_raise {A} e : keeps_inv (@raise A e).
Proof. by intros st. Qed.

Lemma keeps_get : keeps_inv get.
Proof. by intros st. Qed.

Lemma keeps_logger l msg : keeps_inv (logger l msg).
Proof. by intros st. Qed.

Lemma keeps_bind {A B} (c : M A) (k : A -> M B) :
  keeps_inv c -> (forall a, keeps_inv (k a)) -> keeps_inv (bind c k).
Proof.
  intros Hc Hk st Hst. unfold bind. specialize (Hc st Hst).
  destruct (c st) as [[a|e] st']; simpl in *; [by apply Hk | done].
Qed.

Lemma keeps_try_except {A} (c : M A) caught handler :
  keeps_inv c -> (forall e, keeps_inv (handler e)) -> keeps_inv (try_except c caught handler).
Proof.
  intros Hc Hh st Hst. unfold try_except. specialize (Hc st Hst).
  destruct (c st) as [[a|e] st']; simpl in *; [done|].
  destruct (caught e); [by apply Hh | done].
Qed.

Lemma keeps_save fs_ok : keeps_inv (_save_devices fs_ok).
Proof. intros st Hst. unfold _save_devices. mrun. by destruct fs_ok. Qed.

Lemma store_inv_insert k d m :
  store_inv m -> device_mac d = k -> upper k = k -> store_inv (<[k := d]> m).
Proof.
  intros Hm Hd Hk k' d'. rewrite lookup_insert. case_decide as Heq.
  - intros [= <-]. by subst.
  - apply Hm.
Qed.

Lemma store_inv_delete k m : store_inv m -> store_inv (delete k m).
Proof. intros Hm k' d' [_ H]%lookup_delete_Some. by apply Hm. Qed.

Lemma keeps_update_device now fs_ok mac sd : keeps_inv (update_device now fs_ok mac sd).
Proof.
  intros st Hst.
  destruct (update_device_devices now fs_ok mac sd st) as [->|(d & -> & _ & Hd)]; [done|].
  apply store_inv_insert; [done| |apply upper_idem].
  rewrite Hd. unfold current_device.
  destruct (_devices st !! upper mac) as [d0|] eqn:Hl; [|done].
  by destruct (Hst _ _ Hl).
Qed.

Lemma keeps_parse_status_message json_loads now payload :
  keeps_inv (parse_status_message json_loads now payload).
Proof.
  intros st Hst. unfold parse_status_message, loads, try_except, bind.
  destruct (json_loads payload) as [v|e]; simpl; [|by destruct e].
  destruct v as [| | | |l|]; try done.
  destruct l as [|item l]; [done|]. cbn -[parse_items].
  by destruct (parse_items_total (item :: l) PyNone [] st) as [[r ->]| ->].
Qed.

Lemma keeps_process_mqtt_message json_loads t_parse t_update fs_ok topic payload :
  keeps_inv (process_mqtt_message json_loads t_parse t_update fs_ok topic payload).
Proof.
  unfold process_mqtt_message.
  apply keeps_try_except; [|intros e; apply keeps_bind; auto using keeps_logger, keeps_ret].
  destruct (_ || _); [apply keeps_bind; auto using keeps_logger, keeps_ret|].
  destruct (negb _); [apply keeps_bind; auto using keeps_logger, keeps_ret|].
  apply keeps_bind; [apply keeps_parse_status_message|].
  intros [parsed|]; [|apply keeps_bind; auto using keeps_logger, keeps_ret].
  destruct (_ <? _)%nat; [apply keeps_bind; auto using keeps_logger, keeps_ret|].
  apply keeps_update_device.
Qed.

Lemma keeps_remove_devices old_devices : keeps_inv (remove_devices old_devices).
Proof.
  induction old_devices as [|mac rest IH]; [apply keeps_ret|].
  intros st Hst. simpl. unfold bind at 1. unfold get.
  destruct (_devices st !! mac); [|done].
  unfold bind, set_devices, logger. simpl.
  apply (IH (Storage (delete mac (_devices st)) (devices_file st)
               ((INFO, Removed_old_device mac) :: log st))).
  by apply store_inv_delete.
Qed.

Lemma keeps_cleanup_old_devices t insertion_order fs_ok max_age_days :
  keeps_inv (cleanup_old_devices t insertion_order fs_ok max_age_days).
Proof.
  unfold cleanup_old_devices.
  apply keeps_bind; [by intros st Hst|]. intros cutoff.
  apply keeps_bind; [apply keeps_get|]. intros st0.
  apply keeps_bind; [apply keeps_remove_devices|]. intros _.
  apply keeps_bind; [|intros _; apply keeps_ret].
  case_bool_decide; [apply keeps_ret | apply keeps_save].
Qed.

Lemma keeps_apply_operation json_loads o st :
  store_inv (_devices st) -> store_inv (_devices (apply_operation json_loads o st)).
Proof.
  destruct o; simpl; try done.
  - apply keeps_update_device.
  - apply keeps_process_mqtt_message.
  - apply keeps_cleanup_old_devices.
Qed.

Lemma run_operations_inv json_loads ops st :
  store_inv (_devices st) -> store_inv (_devices (run_operations json_loads ops st)).
Proof.
  revert st. induction ops as [|o ops IH]; intros st Hst; [done|].
  by apply IH, keeps_apply_operation.
Qed.

(** C10: from the empty store, after any sequence of calls of
    [update_device], [process_mqtt_message], [cleanup_old_devices] and
    the readers, every stored record has as [mac] the key it is stored
    under, and that key is its own upper-case form. *)
Theorem stored_mac_is_upper_case_key json_loads ops k d :
  _devices (run_operations json_loads ops empty_storage) !! k = Some d ->
  device_mac d = k /\ upper k = k.
Proof.
  apply run_operations_inv. intros k' d'. simpl. by rewrite lookup_empty.
Qed.

Lemma stored_mac_is_upper_case_key_witness :
  dom (_devices
         (run_operations (loads_only (snapshot_document "B0:CE:18:C3:3A:A2"))
            sample_operations empty_storage)) = {[ "AA:BB" ]}
  /\ upper "AA:BB" = "AA:BB".
Proof.
  assert (H : _devices
                (run_operations (loads_only (snapshot_document "B0:CE:18:C3:3A:A2"))
                   sample_operations empty_storage) !! "AA:BB"
              = Some (Device "AA:BB" 3 3 ["brightness"; "switch"; "color"]
                        [(KStr "supportAttributes", PyStr "brightness, switch,color")]))
    by (vm_compute; reflexivity).
  split; [vm_compute; reflexivity|].
  exact (proj2 (stored_mac_is_upper_case_key _ _ _ _ H)).
Defined.

(** * Further properties of the store *)

(** ** What one update touches *)

(** X1 [update_device], lines 111-162: whatever the call returns or raises,
    the records under every other key are the ones from before. *)
Theorem update_device_touches_one_key now fs_ok mac sd st k :
  k <> upper mac ->
  _devices (update_device now fs_ok mac sd st).2 !! k = _devices st !! k.
Proof.
  intros Hk.
  destruct (update_device_devices now fs_ok mac sd st) as [->|(d & -> & _)]; [done|].
  by rewrite lookup_insert_ne.
Qed.

Lemma update_device_touches_one_key_witness :
  _devices (update_device 20 true "cc:dd" capability_status one_device_storage).2 !! "AA:BB"
  = Some (Device "AA:BB" 11 11 [] []).
Proof.
  assert (H : "AA:BB" <> upper "cc:dd") by (vm_compute; discriminate).
  exact (eq_trans
           (update_device_touches_one_key 20 true "cc:dd" capability_status
              one_device_storage "AA:BB" H) eq_refl).
Defined.

(** X2 [update_device], lines 126-136 and 158: after an accepted update the
    record under the canonical key has the time of the call as
    [last_seen]; a record that was stored keeps its [first_seen] and
    [mac], a new one has the time of the call as [first_seen] and the
    canonical key as [mac]. *)
Theorem accepted_update_sets_times now fs_ok mac sd st st' :
  update_device now fs_ok mac sd st = (Ret true, st') ->
  exists d',
    _devices st' !! upper mac = Some d'
    /\ last_seen d' = now
    /\ match _devices st !! upper mac with
       | Some d => first_seen d' = first_seen d /\ device_mac d' = device_mac d
       | None => first_seen d' = now /\ device_mac d' = upper mac
       end.
Proof.
  intros E.
  destruct (update_device_accepted _ _ _ _ _ _ E) as (caps & _ & _ & _ & _ & Hd & _).
  eexists. rewrite Hd, lookup_insert_eq. split; [reflexivity|]. split; [reflexivity|].
  unfold current_device. by destruct (_devices st !! upper mac).
Qed.

Lemma accepted_update_sets_times_witness :
  exists d',
    _devices (update_device 20 false "aa:bb" capability_status one_device_storage).2
      !! "AA:BB" = Some d'
    /\ last_seen d' = 20 /\ first_seen d' = 11.
Proof.
  destruct (accepted_update_sets_times 20 false "aa:bb" capability_status
              one_device_storage
              (update_device 20 false "aa:bb" capability_status one_device_storage).2)
    as (d' & Hd & Hl & Hf).
  - vm_compute. reflexivity.
  - exists d'. split; [exact Hd|]. split; [exact Hl|]. exact (proj1 Hf).
Defined.

(** X3 [update_device], lines 139-150: an accepted update merges: in the
    stored attributes every key of the incoming attributes holds its last
    incoming value, and every other key holds what the record had. *)
Theorem accepted_update_merges_attributes now fs_ok mac sd st st' incoming :
  update_device now fs_ok mac sd st = (Ret true, st') ->
  status_attributes sd = Some incoming ->
  exists d',
    _devices st' !! upper mac = Some d'
    /\ forall k,
        dict_get k (attributes d')
        = match dict_last k incoming with
          | Some v => Some v
          | None => dict_get k (attributes (current_device now (upper mac) st))
          end.
Proof.
  intros E Hinc.
  destruct (update_device_accepted _ _ _ _ _ _ E) as (caps & _ & _ & _ & _ & Hd & _).
  eexists. rewrite Hd, lookup_insert_eq. split; [reflexivity|].
  intros k. simpl. unfold merged_attributes. rewrite Hinc. apply dict_get_update.
Qed.

Lemma accepted_update_merges_attributes_witness :
  exists d',
    _devices
      (update_device 2 true "aa" (Status PyNone (Some [(KStr "b", PyStr "2")]) 0)
         (update_device 1 true "aa" (Status PyNone (Some [(KStr "a", PyStr "1")]) 0)
            empty_storage).2).2 !! "AA" = Some d'
    /\ dict_get (KStr "a") (attributes d') = Some (PyStr "1")
    /\ dict_get (KStr "b") (attributes d') = Some (PyStr "2").
Proof.
  destruct (accepted_update_merges_attributes 2 true "aa"
              (Status PyNone (Some [(KStr "b", PyStr "2")]) 0)
              (update_device 1 true "aa" (Status PyNone (Some [(KStr "a", PyStr "1")]) 0)
                 empty_storage).2
              (update_device 2 true "aa" (Status PyNone (Some [(KStr "b", PyStr "2")]) 0)
                 (update_device 1 true "aa" (Status PyNone (Some [(KStr "a", PyStr "1")]) 0)
                    empty_storage).2).2
              [(KStr "b", PyStr "2")])
    as (d' & Hd & Hget).
  - vm_compute. reflexivity.
  - reflexivity.
  - exists d'. split; [exact Hd|]. rewrite !Hget. split; vm_compute; reflexivity.
Defined.

(** X4 [update_device] and [_save_devices], lines 54-66 and 111-162: a call
    writes the snapshot exactly when it returns [True] and the write
    succeeds, and then the file is written from the whole in-memory
    mapping as the call leaves it; in every other case the file is the
    one from before the call. *)
Theorem snapshot_changes_only_on_accept now fs_ok mac sd st :
  let r := (update_device now fs_ok mac sd st).1 in
  let st' := (update_device now fs_ok mac sd st).2 in
  (r = Ret true -> fs_ok = true -> devices_file st' = Some (_devices st'))
  /\ (r <> Ret true \/ fs_ok = false -> devices_file st' = devices_file st).
Proof.
  pose proof (update_device_outcome now fs_ok mac sd st) as O.
  destruct (update_device now fs_ok mac sd st) as [r st'].
  inversion O; subst; simpl; (split; [try done|try done]).
  - by intros _ ->.
  - by intros [?| ->].
Qed.

Lemma snapshot_changes_only_on_accept_witness :
  devices_file (update_device 20 true "aa:bb" capability_status one_device_storage).2
  = Some (_devices (update_device 20 true "aa:bb" capability_status one_device_storage).2)
  /\ devices_file (update_device 20 false "aa:bb" capability_status one_device_storage).2
     = Some one_device.
Proof.
  split.
  - refine (proj1 (snapshot_changes_only_on_accept 20 true "aa:bb" capability_status
                     one_device_storage) _ eq_refl).
    vm_compute. reflexivity.
  - exact (proj2 (snapshot_changes_only_on_accept 20 false "aa:bb" capability_status
                    one_device_storage) (or_intror eq_refl)).
Defined.

(** X5 [update_device], lines 120-148: a call for a key that is not stored
    and that does not return [True] leaves the mapping as it was: no
    record is created by a rejected or failed update. *)
Theorem failed_update_creates_no_record now fs_ok mac sd st :
  _devices st !! upper mac = None ->
  (update_device now fs_ok mac sd st).1 <> Ret true ->
  _devices (update_device now fs_ok mac sd st).2 = _devices st.
Proof.
  intros Hnone Hr.
  pose proof (update_device_outcome now fs_ok mac sd st) as O.
  destruct (update_device now fs_ok mac sd st) as [r st'].
  inversion O; subst; simpl in *; try done.
  - unfold written_through. by rewrite Hnone.
  - unfold written_through. by rewrite Hnone.
Qed.

Lemma failed_update_creates_no_record_witness :
  (update_device 20 true "cc:dd" number_capability_status one_device_storage).1
  = Raise AttributeError
  /\ _devices (update_device 20 true "cc:dd" number_capability_status one_device_storage).2
     = one_device.
Proof.
  split; [vm_compute; reflexivity|].
  refine (failed_update_creates_no_record 20 true "cc:dd" number_capability_status
            one_device_storage _ _).
  - vm_compute. reflexivity.
  - vm_compute. discriminate.
Defined.

(** X6 [update_device], lines 150-155: when the merged [supportAttributes]
    of a stored record is not text, the call raises [AttributeError]; by
    then the record in memory already has the merged attributes and the
    new [last_seen], with its old capabilities, and no snapshot is written. *)
Theorem non_text_supportAttributes_raises now fs_ok mac sd st d v :
  mac <> "" ->
  _devices st !! upper mac = Some d ->
  fits (merged_attributes d sd) sd ->
  dict_get (KStr "supportAttributes") (merged_attributes d sd) = Some v ->
  (forall s, v <> PyStr s) ->
  update_device now fs_ok mac sd st
  = (Raise AttributeError,
     Storage
       (<[upper mac := Device (device_mac d) (first_seen d) now (capabilities d)
                         (merged_attributes d sd)]> (_devices st))
       (devices_file st) (log st)).
Proof.
  intros Hmac Hd Hfit Hsup Hv.
  pose proof (current_device_stored now _ _ _ Hd) as Hcur. revert Hcur.
  pose proof (update_device_outcome now fs_ok mac sd st) as O.
  destruct (update_device now fs_ok mac sd st) as [r st'].
  inversion O as [ ? | ? Hnone ? | cur merged ? ? Hsome Hbig | v' cur merged ? ? ? Hsup' ?
                 | caps cur merged ? ? ? Hcaps ]; subst; intros Hcur.
  - done.
  - congruence.
  - subst cur merged. rewrite Hcur in Hbig. destruct Hfit as [Hfit|Hfit]; [lia|].
    rewrite Hfit in Hsome. by destruct Hsome.
  - subst cur merged. rewrite Hcur. by rewrite (written_through_stored _ _ _ _ Hd).
  - subst cur merged. rewrite Hcur, Hsup in Hcaps. destruct Hcaps as (s & -> & _).
    by destruct (Hv s).
Qed.

Lemma non_text_supportAttributes_raises_witness :
  update_device 20 true "aa:bb" number_capability_status one_device_storage
  = (Raise AttributeError,
     Storage {[ "AA:BB" := Device "AA:BB" 11 20 [] [(KStr "supportAttributes", PyInt 5)] ]}
       (Some one_device) []).
Proof.
  refine (eq_trans
            (non_text_supportAttributes_raises 20 true "aa:bb" number_capability_status
               one_device_storage (Device "AA:BB" 11 11 [] []) (PyInt 5) _ _ _ _ _) _).
  - discriminate.
  - reflexivity.
  - left. vm_compute. discriminate.
  - reflexivity.
  - discriminate.
  - vm_compute. reflexivity.
Defined.

(** ** The sweep *)

Lemma delete_all_lookup (keys : list string) (m : gmap string device_record) k :
  foldl (fun m k => delete k m) m keys !! k = if decide (k ∈ keys) then None else m !! k.
Proof.
  revert m. induction keys as [|k0 keys IH]; intros m; simpl; [done|].
  rewrite IH. destruct (decide (k ∈ keys)) as [Hin|Hin].
  - rewrite decide_True; [done | by apply list_elem_of_further].
  - destruct (decide (k = k0)) as [->|Hne].
    + rewrite lookup_delete_eq. by rewrite decide_True by apply list_elem_of_here.
    + rewrite lookup_delete_ne by done. rewrite decide_False; [done|].
      intros [?|?]%elem_of_cons; done.
Qed.

Lemma remove_devices_run keys st :
  NoDup keys ->
  (forall k, k ∈ keys -> is_Some (_devices st !! k)) ->
  remove_devices keys st
  = (Ret tt,
     Storage (foldl (fun m k => delete k m) (_devices st) keys) (devices_file st)
       (reverse ((fun k => (INFO, Removed_old_device k)) <$> keys) ++ log st)%list).
Proof.
  revert st. induction keys as [|k keys IH]; intros st Hnd Hin; simpl.
  - by destruct st.
  - apply NoDup_cons in Hnd as [Hk Hnd].
    destruct (Hin k (list_elem_of_here _ _)) as [d Hd].
    unfold bind, get, set_devices, logger. rewrite Hd.
    rewrite IH; [|done|].
    + simpl. by rewrite reverse_cons, <- app_assoc.
    + intros k' Hk'. simpl. rewrite lookup_delete_ne by (by intros ->).
      by apply Hin, list_elem_of_further.
Qed.

Lemma delete_all_size (keys : list string) (m : gmap string device_record) :
  NoDup keys ->
  (forall k, k ∈ keys -> is_Some (m !! k)) ->
  size m = (length keys + size (foldl (fun m k => delete k m) m keys))%nat.
Proof.
  revert m. induction keys as [|k keys IH]; intros m Hnd Hin; simpl; [done|].
  apply NoDup_cons in Hnd as [Hk Hnd].
  rewrite <- IH; [|done|].
  - rewrite map_size_delete_Some by apply Hin, list_elem_of_here.
    destruct (Hin k (list_elem_of_here _ _)) as [d Hd].
    assert (size m <> 0%nat); [|lia].
    intros ->%map_size_empty_inv. by rewrite lookup_empty in Hd.
  - intros k' Hk'. rewrite lookup_delete_ne by (by intros ->).
    by apply Hin, list_elem_of_further.
Qed.

Lemma map_fst_fmap {A B} (l : list (A * B)) : map fst l = l.*1.
Proof. induction l as [|x l IH]; simpl; [done | by rewrite IH]. Qed.

(** The keys [cleanup_old_devices] collects, in the order of the dict. *)
Lemma old_devices_keys (cutoff : Z) order (m : gmap string device_record) :
  (forall k, k ∈ order -> is_Some (m !! k)) ->
  (filter (fun kv : string * device_record => last_seen kv.2 < cutoff)
     (dict_items order m)).*1
  = filter (fun k => filter (fun kv : string * device_record => ¬ last_seen kv.2 < cutoff) m
                     !! k = None) order.
Proof.
  induction order as [|k order IH]; intros Hin; [done|].
  destruct (Hin k (list_elem_of_here _ _)) as [d Hd].
  unfold dict_items. simpl. rewrite Hd. simpl. fold (dict_items order m).
  rewrite !filter_cons. simpl.
  rewrite map_lookup_filter, Hd. simpl.
  specialize (IH (fun k' Hk' => Hin k' (list_elem_of_further _ _ _ Hk'))).
  destruct (decide (last_seen d < cutoff)) as [Hold|Hold].
  - rewrite option_guard_False by tauto. rewrite decide_True by done.
    simpl. f_equal. exact IH.
  - rewrite option_guard_True by done. rewrite decide_False by done. exact IH.
Qed.

(** X7 [cleanup_old_devices], lines 222-238.  When line 224 yields a
    cutoff, the sweep returns: it removes exactly the records whose
    [last_seen] is below the cutoff and leaves the others as they are,
    returns how many it removed, logs one removal line for each in the
    order of the dict, and writes the snapshot only when it removed
    some.  When line 224 raises (an age too large for a float), the sweep
    raises that exception and has changed nothing. *)
Theorem cleanup_removes_exactly_the_old t order fs_ok max_age_days st :
  lists_keys order (_devices st) ->
  match cutoff_time t max_age_days with
  | Ret cutoff =>
      let kept := filter (fun kv => ¬ last_seen kv.2 < cutoff) (_devices st) in
      let removed := filter (fun k => kept !! k = None) order in
      exists st',
        cleanup_old_devices t order fs_ok max_age_days st
        = (Ret (size (_devices st) - size kept)%nat, st')
        /\ _devices st' = kept
        /\ (exists saved : list (level * message),
              log st'
              = (saved ++ reverse ((fun k => (INFO, Removed_old_device k)) <$> removed)
                   ++ log st)%list)
        /\ (size kept = size (_devices st) -> devices_file st' = devices_file st)
        /\ (size kept <> size (_devices st) ->
            devices_file st' = if fs_ok then Some kept else devices_file st)
  | Raise e => cleanup_old_devices t order fs_ok max_age_days st = (Raise e, st)
  end.
Proof.
  intros [Hnd Hkeys].
  unfold cleanup_old_devices. unfold bind at 1. unfold lift.
  destruct (cutoff_time t max_age_days) as [cutoff|e]; [|reflexivity].
  set (kept := filter (fun kv : string * device_record => ¬ last_seen kv.2 < cutoff)
                 (_devices st)).
  set (removed := filter (fun k => kept !! k = None) order).
  assert (Hin : forall k, k ∈ order -> is_Some (_devices st !! k)).
  { intros k Hk. by apply Hkeys. }
  assert (Hnd' : NoDup removed) by by apply NoDup_filter.
  assert (Hin' : forall k, k ∈ removed -> is_Some (_devices st !! k)).
  { intros k [_ Hk]%list_elem_of_filter. by apply Hin. }
  assert (Hkept : foldl (fun m k => delete k m) (_devices st) removed = kept).
  { apply map_eq. intros k. rewrite delete_all_lookup.
    destruct (decide (k ∈ removed)) as [[Hk _]%list_elem_of_filter|Hk]; [done|].
    destruct (kept !! k) as [d|] eqn:Hd.
    - by apply map_lookup_filter_Some in Hd as [Hd _].
    - destruct (_devices st !! k) as [d|] eqn:Hm; [|done].
      destruct Hk. apply list_elem_of_filter. split; [done|].
      apply Hkeys. by exists d. }
  pose proof (delete_all_size removed (_devices st) Hnd' Hin') as Hlen.
  rewrite Hkept in Hlen.
  unfold bind at 1. unfold get. cbv beta iota zeta.
  rewrite map_fst_fmap, (old_devices_keys cutoff order (_devices st) Hin).
  fold kept. fold removed.
  unfold bind at 1. rewrite (remove_devices_run removed st Hnd' Hin'), Hkept.
  replace (size (_devices st) - size kept)%nat with (length removed) by lia.
  case_bool_decide as Hnil.
  - rewrite Hnil in *. simpl in Hlen.
    mrun. eexists. split; [reflexivity|]. split; [done|].
    split; [by exists []|]. split; [done|]. lia.
  - assert (length removed <> 0%nat).
    { intros H0. apply Hnil. by apply nil_length_inv in H0. }
    mrun. destruct fs_ok; simpl; eexists; (split; [reflexivity|]);
      (split; [done|]); (split; [by eexists [_]|]); (split; [lia | done]).
Qed.

Lemma cleanup_removes_exactly_the_old_witness :
  cutoff_time 0x1.518000c49ba5ep+16 1 = Ret 2
  /\ (cleanup_old_devices 0x1.518000c49ba5ep+16 ["AA:BB"; "B0:CE"] true 1
        two_device_storage).1 = Ret 1%nat
  /\ _devices (cleanup_old_devices 0x1.518000c49ba5ep+16 ["AA:BB"; "B0:CE"] true 1
                 two_device_storage).2
     = {["B0:CE" := Device "B0:CE" 2 2 [] []]}
  /\ cleanup_old_devices 0x1.518000c49ba5ep+16 ["AA:BB"; "B0:CE"] true (10 ^ 304)
       two_device_storage
     = (Raise OverflowError, two_device_storage).
Proof.
  assert (Hkeys : lists_keys ["AA:BB"; "B0:CE"] (_devices two_device_storage)).
  { split.
    { apply NoDup_cons. split; [|apply NoDup_singleton].
      by intros [= ]%list_elem_of_singleton. }
    intros k. rewrite !elem_of_cons, elem_of_nil. split.
    - intros [->|[->|[]]];
        [exists (Device "AA:BB" 1 1 [] []) | exists (Device "B0:CE" 2 2 [] [])];
        vm_compute; reflexivity.
    - intros [d Hd]. simpl in Hd.
      destruct (decide (k = "B0:CE")) as [->|Hne]; [tauto|].
      rewrite lookup_insert_ne in Hd by done.
      apply lookup_singleton_Some in Hd as [<- _]. tauto. }
  assert (Hcut : cutoff_time 0x1.518000c49ba5ep+16 1 = Ret 2)
    by (vm_compute; reflexivity).
  assert (Hover : cutoff_time 0x1.518000c49ba5ep+16 (10 ^ 304) = Raise OverflowError)
    by (vm_compute; reflexivity).
  pose proof (cleanup_removes_exactly_the_old 0x1.518000c49ba5ep+16 ["AA:BB"; "B0:CE"]
                true 1 two_device_storage Hkeys) as H.
  rewrite Hcut in H. cbv zeta in H. destruct H as (st' & E & Hm & _).
  pose proof (cleanup_removes_exactly_the_old 0x1.518000c49ba5ep+16 ["AA:BB"; "B0:CE"]
                true (10 ^ 304) two_device_storage Hkeys) as H'.
  rewrite Hover in H'.
  split; [exact Hcut|]. rewrite E. simpl.
  split; [by vm_compute|]. split; [|exact H'].
  rewrite Hm. by vm_compute.
Defined.

(** ** Invariants of the mapping *)

Section Invariants.

Variable json_loads : string -> res pyvalue.
Variable P : gmap string device_record -> Prop.
Hypothesis P_delete : forall k m, P m -> P (delete k m).
Hypothesis P_update : forall now fs_ok mac sd, preserves P (update_device now fs_ok mac sd).

Lemma preserves_bind {A B} (c : M A) (k : A -> M B) :
  preserves P c -> (forall a, preserves P (k a)) -> preserves P (bind c k).
Proof.
  intros Hc Hk st Hst. unfold bind. specialize (Hc st Hst).
  destruct (c st) as [[a|e] st']; simpl in *; [by apply Hk | done].
Qed.

Lemma preserves_try_except {A} (c : M A) caught handler :
  preserves P c -> (forall e, preserves P (handler e)) ->
  preserves P (try_except c caught handler).
Proof.
  intros Hc Hh st Hst. unfold try_except. specialize (Hc st Hst).
  destruct (c st) as [[a|e] st']; simpl in *; [done|].
  destruct (caught e); [by apply Hh | done].
Qed.

Lemma preserves_log_false l msg : preserves P (logger l msg ;; ret false).
Proof. by intros st. Qed.

Lemma preserves_parse_status_message now payload :
  preserves P (parse_status_message json_loads now payload).
Proof.
  intros st Hst. unfold parse_status_message, loads, try_except, bind.
  destruct (json_loads payload) as [v|e]; simpl; [|by destruct e].
  destruct v as [| | | |l|]; try done.
  destruct l as [|item l]; [done|]. cbn -[parse_items].
  by destruct (parse_items_total (item :: l) PyNone [] st) as [[r ->]| ->].
Qed.

Lemma preserves_process_mqtt_message t_parse t_update fs_ok topic payload :
  preserves P (process_mqtt_message json_loads t_parse t_update fs_ok topic payload).
Proof.
  unfold process_mqtt_message.
  apply preserves_try_except; [|intros e; apply preserves_log_false].
  destruct (_ || _); [apply preserves_log_false|].
  destruct (negb _); [apply preserves_log_false|].
  apply preserves_bind; [apply preserves_parse_status_message|].
  intros [parsed|]; [|apply preserves_log_false].
  destruct (_ <? _)%nat; [apply preserves_log_false | apply P_update].
Qed.

Lemma preserves_remove_devices old_devices : preserves P (remove_devices old_devices).
Proof.
  induction old_devices as [|mac rest IH]; [by intros st|].
  intros st Hst. simpl. unfold bind at 1. unfold get.
  destruct (_devices st !! mac); [|done].
  unfold bind, set_devices, logger. simpl.
  apply (IH (Storage (delete mac (_devices st)) (devices_file st)
               ((INFO, Removed_old_device mac) :: log st))).
  by apply P_delete.
Qed.

Lemma preserves_cleanup_old_devices t insertion_order fs_ok max_age_days :
  preserves P (cleanup_old_devices t insertion_order fs_ok max_age_days).
Proof.
  unfold cleanup_old_devices.
  apply preserves_bind; [by intros st Hst|]. intros cutoff.
  apply preserves_bind; [by intros st|]. intros st0.
  apply preserves_bind; [apply preserves_remove_devices|]. intros _.
  apply preserves_bind; [|by intros _ st].
  case_bool_decide; [by intros st|].
  intros st Hst. unfold _save_devices. mrun. by destruct fs_ok.
Qed.

Lemma preserves_run_operations ops st :
  P (_devices st) -> P (_devices (run_operations json_loads ops st)).
Proof.
  revert st. induction ops as [|o ops IH]; intros st Hst; [done|].
  apply IH. destruct o; simpl; try done.
  - by apply P_update.
  - by apply preserves_process_mqtt_message.
  - by apply preserves_cleanup_old_devices.
Qed.

End Invariants.

Lemma attributes_fit_update now fs_ok mac sd :
  preserves attributes_fit (update_device now fs_ok mac sd).
Proof.
  intros st Hst.
  assert (Hcur : json_size (attributes (current_device now (upper mac) st))
                 <= MAX_DEVICE_SIZE_BYTES).
  { unfold current_device. destruct (_devices st !! upper mac) as [d|] eqn:Hd; simpl.
    - by apply (Hst _ _ Hd).
    - vm_compute. discriminate. }
  assert (Hmerged : fits (merged_attributes (current_device now (upper mac) st) sd) sd ->
            json_size (merged_attributes (current_device now (upper mac) st) sd)
            <= MAX_DEVICE_SIZE_BYTES).
  { intros [H|H]; [done|]. unfold merged_attributes. by rewrite H. }
  assert (Hins : forall d, json_size (attributes d) <= MAX_DEVICE_SIZE_BYTES ->
            attributes_fit (<[upper mac := d]> (_devices st))).
  { intros d Hd k d'. rewrite lookup_insert. case_decide; [by intros [= <-] | apply Hst]. }
  pose proof (update_device_outcome now fs_ok mac sd st) as O.
  destruct (update_device now fs_ok mac sd st) as [r st'].
  inversion O; subst; simpl; try done.
  - unfold written_through. destruct (_devices st !! upper mac); [by apply Hins | done].
  - unfold written_through. destruct (_devices st !! upper mac); [|done].
    apply Hins. simpl. by apply Hmerged.
  - apply Hins. simpl. by apply Hmerged.
Qed.

(** X8 [update_device] with [process_mqtt_message] and
    [cleanup_old_devices], lines 139-150: from the empty store, after any
    sequence of calls, the attributes of every stored record serialize to
    at most [MAX_DEVICE_SIZE_BYTES] bytes. *)
Theorem stored_attributes_fit json_loads ops k d :
  _devices (run_operations json_loads ops empty_storage) !! k = Some d ->
  json_size (attributes d) <= MAX_DEVICE_SIZE_BYTES.
Proof.
  apply (preserves_run_operations json_loads attributes_fit).
  - intros k' m Hm k'' d' [_ H]%lookup_delete_Some. by apply (Hm _ _ H).
  - apply attributes_fit_update.
  - intros k' d'. simpl. by rewrite lookup_empty.
Qed.

Lemma stored_attributes_fit_witness :
  _devices (run_operations (loads_only (snapshot_document "B0:CE:18:C3:3A:A2"))
              sample_operations empty_storage) !! "AA:BB"
  = Some (Device "AA:BB" 3 3 ["brightness"; "switch"; "color"]
            [(KStr "supportAttributes", PyStr "brightness, switch,color")])
  /\ json_size [(KStr "supportAttributes", PyStr "brightness, switch,color")]
     <= MAX_DEVICE_SIZE_BYTES.
Proof.
  assert (H : _devices
                (run_operations (loads_only (snapshot_document "B0:CE:18:C3:3A:A2"))
                   sample_operations empty_storage) !! "AA:BB"
              = Some (Device "AA:BB" 3 3 ["brightness"; "switch"; "color"]
                        [(KStr "supportAttributes", PyStr "brightness, switch,color")]))
    by (vm_compute; reflexivity).
  split; [exact H|].
  exact (stored_attributes_fit _ _ _ _ H).
Defined.

(** ** Reading the store *)

(** X9 [get_device] after [update_device], lines 117 and 209-212: once an
    update is accepted, [get_device] returns the updated record for every
    spelling of the identifier that has the same upper-case form, and
    changes nothing. *)
Theorem get_device_ignores_case now fs_ok mac mac' sd st st' :
  update_device now fs_ok mac sd st = (Ret true, st') ->
  upper mac' = upper mac ->
  exists d,
    get_device mac' st' = (Ret (Some d), st')
    /\ last_seen d = now
    /\ attributes d = merged_attributes (current_device now (upper mac) st) sd.
Proof.
  intros E Hmac.
  destruct (update_device_accepted _ _ _ _ _ _ E) as (caps & _ & _ & _ & _ & Hd & _).
  eexists. unfold get_device, bind, get, ret. rewrite Hmac, Hd, lookup_insert_eq.
  by repeat split.
Qed.

Lemma get_device_ignores_case_witness :
  exists d,
    (get_device "Aa:bB"
       (update_device 20 true "aa:bb" capability_status one_device_storage).2).1
    = Ret (Some d)
    /\ last_seen d = 20.
Proof.
  destruct (get_device_ignores_case 20 true "aa:bb" "Aa:bB" capability_status
              one_device_storage
              (update_device 20 true "aa:bb" capability_status one_device_storage).2)
    as (d & Hg & Hl & _).
  - vm_compute. reflexivity.
  - vm_compute. reflexivity.
  - exists d. rewrite Hg. by split.
Defined.

Lemma map_is_fmap {A B} (f : A -> B) (l : list A) : map f l = f <$> l.
Proof. induction l as [|x l IH]; simpl; [done | by rewrite IH]. Qed.

Lemma foldl_max_ge (t : Z) ts : t <= foldl Z.max t ts.
Proof.
  revert t. induction ts as [|x ts IH]; intros t; simpl; [lia|].
  specialize (IH (Z.max t x)). lia.
Qed.

Lemma foldl_max_upper (t : Z) ts x : x ∈ ts -> x <= foldl Z.max t ts.
Proof.
  revert t. induction ts as [|y ts IH]; intros t Hin; [by apply elem_of_nil in Hin|].
  simpl. apply elem_of_cons in Hin as [->|Hin]; [|by apply IH].
  pose proof (foldl_max_ge (Z.max t y) ts). lia.
Qed.

Lemma foldl_max_elem (t : Z) ts : foldl Z.max t ts = t \/ foldl Z.max t ts ∈ ts.
Proof.
  revert t. induction ts as [|y ts IH]; intros t; simpl; [by left|].
  destruct (IH (Z.max t y)) as [H|H].
  - rewrite H. destruct (Z.max_spec t y) as [[_ ->]|[_ ->]];
      [right; apply list_elem_of_here | by left].
  - right. by apply list_elem_of_further.
Qed.

(** X10 [get_storage_stats], lines 240-266: the statistics change nothing
    in the store; [total_devices] is the number of records and
    [last_updated] is the largest [last_seen] among them: no record was
    seen later, some record was seen then, and it is 0 for an empty store. *)
Theorem storage_stats_report_latest file_size st :
  exists s,
    get_storage_stats file_size st = (Ret s, st)
    /\ total_devices s = size (_devices st)
    /\ file_size_bytes s = file_size
    /\ (forall k d, _devices st !! k = Some d -> last_seen d <= last_updated s)
    /\ (_devices st = ∅ -> last_updated s = 0)
    /\ (_devices st <> ∅ ->
        exists k d, _devices st !! k = Some d /\ last_seen d = last_updated s).
Proof.
  eexists. split; [reflexivity|]. simpl. split; [done|]. split; [done|].
  rewrite map_is_fmap.
  set (seen := (fun kv : string * device_record => last_seen kv.2)
                 <$> map_to_list (_devices st)).
  assert (Hin : forall t, t ∈ seen <->
            exists k d, _devices st !! k = Some d /\ last_seen d = t).
  { intros t. unfold seen. rewrite list_elem_of_fmap. split.
    - intros ([k d] & -> & Hd%elem_of_map_to_list). eauto.
    - intros (k & d & Hd & <-). exists (k, d). split; [done|].
      by apply elem_of_map_to_list. }
  destruct seen as [|t ts] eqn:Hl.
  - split; [|split].
    + intros k d Hd. exfalso. eapply elem_of_nil, Hin. eauto.
    + done.
    + intros Hne. destruct (map_choose _ Hne) as (k & d & Hd).
      exfalso. eapply elem_of_nil, Hin. eauto.
  - split; [|split].
    + intros k d Hd.
      assert (Hd' : last_seen d ∈ t :: ts) by (apply Hin; eauto).
      apply elem_of_cons in Hd' as [->|Hd']; [apply foldl_max_ge | by apply foldl_max_upper].
    + intros Hempty. unfold seen in Hl. rewrite Hempty, map_to_list_empty in Hl.
      discriminate.
    + intros _. apply Hin.
      destruct (foldl_max_elem t ts) as [->|H];
        [apply list_elem_of_here | by apply list_elem_of_further].
Qed.

(** ** The ingestion path *)

(** X11 [process_mqtt_message], lines 175-207: the method never raises,
    whatever the topic and the payload; for a topic that is no device
    status topic (fewer than three segments, another first segment, or a
    third segment other than [status]) it returns [False] and leaves
    mapping and snapshot as they were. *)
Theorem process_mqtt_message_never_raises
    json_loads t_parse t_update fs_ok topic payload st :
  exists b,
    (process_mqtt_message json_loads t_parse t_update fs_ok topic payload st).1 = Ret b
    /\ (¬ status_topic topic ->
        b = false
        /\ _devices (process_mqtt_message json_loads t_parse t_update fs_ok topic payload
                       st).2 = _devices st
        /\ devices_file (process_mqtt_message json_loads t_parse t_update fs_ok topic
                           payload st).2 = devices_file st).
Proof.
  unfold process_mqtt_message, status_topic.
  destruct (Nat.ltb_spec (length (split "/" topic)) 3) as [Hlt|Hge].
  { exists false. split; [done|]. by intros _. }
  destruct (String.eqb_spec (nth 0 (split "/" topic) "") "wifielement") as [Hns|Hns].
  2:{ exists false. split; [done|]. by intros _. }
  destruct (String.eqb_spec (nth 2 (split "/" topic) "") "status") as [Hty|Hty].
  2:{ exists false. split; [done|]. by intros _. }
  cbn [negb orb]. unfold try_except at 1.
  match goal with |- context [bind ?c ?k st] => destruct (bind c k st) as [[b|e] st'] end.
  - exists b. split; [done|]. intros H. destruct H. by repeat split.
  - exists false. split; [done|]. intros H. destruct H. by repeat split.
Qed.

Lemma process_true_inv json_loads t_parse t_update fs_ok topic payload st st' :
  process_mqtt_message json_loads t_parse t_update fs_ok topic payload st = (Ret true, st') ->
  status_topic topic
  /\ exists parsed,
      parse_status_message json_loads t_parse payload st = (Ret (Some parsed), st)
      /\ (5 <= length (default [] (status_attributes parsed)))%nat
      /\ update_device t_update fs_ok (topic_mac topic) parsed st = (Ret true, st').
Proof.
  unfold process_mqtt_message, status_topic, topic_mac.
  destruct (Nat.ltb_spec (length (split "/" topic)) 3) as [Hlt|Hge]; [by intros [= ]|].
  destruct (String.eqb_spec (nth 0 (split "/" topic) "") "wifielement") as [Hns|Hns];
    [|by intros [= ]].
  destruct (String.eqb_spec (nth 2 (split "/" topic) "") "status") as [Hty|Hty];
    [|by intros [= ]].
  cbn [negb orb]. unfold try_except at 1. unfold bind at 1.
  destruct (parse_status_message json_loads t_parse payload st) as [[[parsed|]|e] st1]
    eqn:Hparse; try (by intros [= ]).
  pose proof (parse_status_message_some _ _ _ _ _ _ Hparse) as ->.
  destruct (Nat.ltb_spec (length (default [] (status_attributes parsed))) 5) as [Hn|Hn];
    [by intros [= ]|].
  destruct (update_device t_update fs_ok (nth 1 (split "/" topic) "") parsed st)
    as [[b|e] st2] eqn:E; [|by intros [= ]].
  intros [= -> ->]. split; [by repeat split|]. exists parsed. by repeat split.
Qed.

Lemma dict_last_class k d v :
  dict_last k d = Some v -> key_class k ∈ key_class <$> d.*1.
Proof.
  revert v. induction d as [|[k0 v0] d IH]; intros v; simpl; [done|].
  destruct (dict_last k d) as [v'|].
  - intros _. apply list_elem_of_further. by apply (IH v').
  - destruct (key_eqb k0 k) eqn:H0; [|done]. intros _.
    apply key_eqb_class in H0. rewrite H0. apply list_elem_of_here.
Qed.

(** With distinct keys, the value found first is the value set last. *)
Lemma dict_get_last k d v :
  distinct_keys d -> dict_get k d = Some v -> dict_last k d = Some v.
Proof.
  unfold distinct_keys. induction d as [|[k0 v0] d IH]; simpl; [done|].
  intros [Hnot Hd]%NoDup_cons. unfold dict_get; fold dict_get.
  destruct (key_eqb k0 k) eqn:H0.
  - intros [= ->]. destruct (dict_last k d) as [v'|] eqn:Hlast; [|done].
    apply dict_last_class in Hlast. apply key_eqb_class in H0. by rewrite <- H0 in Hlast.
  - intros Hget. by rewrite (IH Hd Hget).
Qed.

Lemma parse_items_distinct items mac pd st r st' :
  parse_items items mac pd st = (Ret r, st') -> distinct_keys pd -> distinct_keys r.2.
Proof.
  revert mac pd. induction items as [|item items IH]; intros mac pd; simpl.
  - by intros [= <- _].
  - destruct item; try apply IH.
    destruct (truthy _ && negb _); [|apply IH].
    unfold setitem. destruct (as_key _); simpl; [|by intros [= ]].
    unfold bind, ret. intros H Hpd. eapply IH; [exact H|]. by apply dict_set_distinct.
Qed.

Lemma parse_status_message_distinct json_loads now payload st parsed st1 :
  parse_status_message json_loads now payload st = (Ret (Some parsed), st1) ->
  exists attrs, status_attributes parsed = Some attrs /\ distinct_keys attrs.
Proof.
  unfold parse_status_message, loads, try_except, bind.
  destruct (json_loads payload) as [v|e]; simpl; [|destruct e; by intros [= ]].
  destruct v as [| | | |l|]; try (simpl; by intros [= ]).
  destruct l as [|item l]; [simpl; by intros [= ]|].
  cbn -[parse_items].
  destruct (parse_items (item :: l) PyNone [] st) as [[r|e] st2] eqn:Hp.
  - intros [= <- _]. eexists. split; [reflexivity|].
    eapply parse_items_distinct; [exact Hp | apply NoDup_nil_2].
  - destruct (caught_by_parser e); by intros [= ].
Qed.

(** X12 [process_mqtt_message], lines 175-203: when the method returns
    [True], the topic was a device status topic, and the record under the
    upper-case form of its second segment was stored at the time of the
    update with every attribute the parser read from the payload. *)
Theorem processed_message_is_stored
    json_loads t_parse t_update fs_ok topic payload st st' :
  process_mqtt_message json_loads t_parse t_update fs_ok topic payload st = (Ret true, st') ->
  status_topic topic
  /\ exists parsed attrs d,
      parse_status_message json_loads t_parse payload st = (Ret (Some parsed), st)
      /\ status_attributes parsed = Some attrs
      /\ _devices st' !! upper (topic_mac topic) = Some d
      /\ last_seen d = t_update
      /\ forall k v, dict_get k attrs = Some v -> dict_get k (attributes d) = Some v.
Proof.
  intros (Htopic & parsed & Hparse & Hn & E)%process_true_inv. split; [done|].
  destruct (update_device_accepted _ _ _ _ _ _ E) as (caps & _ & _ & _ & _ & Hd & _).
  destruct (parse_status_message_distinct _ _ _ _ _ _ Hparse) as (attrs & Ha & Hdist).
  exists parsed, attrs. eexists. split; [done|]. split; [done|].
  rewrite Hd, lookup_insert_eq. split; [reflexivity|]. split; [reflexivity|].
  intros k v Hk. simpl. unfold merged_attributes. rewrite Ha, dict_get_update.
  by rewrite (dict_get_last _ _ _ Hdist Hk).
Qed.

Lemma processed_message_is_stored_witness :
  exists d,
    _devices
      (process_mqtt_message (loads_only (snapshot_document "B0:CE:18:C3:3A:A2")) 1 2 true
         "wifielement/b0:ce:18:c3:3a:a2/status"
         (json_dumps (snapshot_document "B0:CE:18:C3:3A:A2")) one_device_storage).2
      !! "B0:CE:18:C3:3A:A2" = Some d
    /\ last_seen d = 2.
Proof.
  destruct (processed_message_is_stored
              (loads_only (snapshot_document "B0:CE:18:C3:3A:A2")) 1 2 true
              "wifielement/b0:ce:18:c3:3a:a2/status"
              (json_dumps (snapshot_document "B0:CE:18:C3:3A:A2")) one_device_storage
              (process_mqtt_message (loads_only (snapshot_document "B0:CE:18:C3:3A:A2"))
                 1 2 true "wifielement/b0:ce:18:c3:3a:a2/status"
                 (json_dumps (snapshot_document "B0:CE:18:C3:3A:A2"))
                 one_device_storage).2)
    as (_ & parsed & attrs & d & _ & _ & Hd & Hl & _).
  - vm_compute. reflexivity.
  - exists d. split; [|exact Hl].
    assert (Hk : upper (topic_mac "wifielement/b0:ce:18:c3:3a:a2/status")
                 = "B0:CE:18:C3:3A:A2") by (vm_compute; reflexivity).
    rewrite Hk in Hd. exact Hd.
Defined.

(** ** The size of serialized attributes *)

Lemma str_len_from_acc acc s : str_len_from acc s = acc + str_len s.
Proof.
  unfold str_len. revert acc. induction s as [|c s IH]; intros acc; simpl; [lia|].
  rewrite (IH (acc + 1)), (IH (0 + 1)). lia.
Qed.

Lemma str_len_cons c s : str_len (String c s) = 1 + str_len s.
Proof. unfold str_len at 1. simpl. by rewrite str_len_from_acc. Qed.

Lemma str_len_nonneg s : 0 <= str_len s.
Proof. induction s as [|c s IH]; [done|]. rewrite str_len_cons. lia. Qed.

Lemma str_len_app s t : str_len (s +:+ t) = str_len s + str_len t.
Proof.
  induction s as [|c s IH]; [done|].
  change (String c s +:+ t) with (String c (s +:+ t)). rewrite !str_len_cons, IH. lia.
Qed.

Lemma str_len_escape_char c : 1 <= str_len (escape_char c).
Proof. destruct c as [[] [] [] [] [] [] [] []]; vm_compute; discriminate. Qed.

Lemma str_len_escape s : str_len s <= str_len (escape s).
Proof.
  induction s as [|c s IH]; [done|]. simpl escape.
  rewrite str_len_cons, str_len_app. pose proof (str_len_escape_char c). lia.
Qed.

Lemma str_len_join sep l x : x ∈ l -> str_len x <= str_len (join sep l).
Proof.
  induction l as [|y l IH]; intros Hin; [by apply elem_of_nil in Hin|].
  assert (Hj : str_len (join sep (y :: l)) >= str_len y
               /\ str_len (join sep (y :: l)) >= str_len (join sep l)).
  { destruct l as [|z l]; simpl.
    - pose proof (str_len_nonneg y). change (str_len "") with 0. lia.
    - rewrite !str_len_app. pose proof (str_len_nonneg sep).
      pose proof (str_len_nonneg y).
      pose proof (str_len_nonneg (match l with [] => z | _ :: _ => z +:+ sep +:+ join sep l end)).
      lia. }
  apply elem_of_cons in Hin as [->|Hin]; [lia|]. specialize (IH Hin). lia.
Qed.

Lemma json_size_entry k v d : (k, v) ∈ d -> str_len (json_dumps v) <= json_size d.
Proof.
  intros Hin. unfold json_size.
  change (json_dumps (PyDict d))
    with ("{" +:+ join ", " (map (fun kv => dumps_key kv.1 +:+ ": " +:+ json_dumps kv.2) d)
          +:+ "}").
  rewrite !str_len_app.
  assert (Hx : str_len (dumps_key k +:+ ": " +:+ json_dumps v)
               <= str_len (join ", "
                    (map (fun kv => dumps_key kv.1 +:+ ": " +:+ json_dumps kv.2) d))).
  { apply str_len_join. rewrite map_is_fmap. apply list_elem_of_fmap. by exists (k, v). }
  rewrite !str_len_app in Hx.
  pose proof (str_len_nonneg (dumps_key k)). pose proof (str_len_nonneg ": ").
  pose proof (str_len_nonneg "{"). pose proof (str_len_nonneg "}"). lia.
Qed.

Lemma dict_get_elem k d v : dict_get k d = Some v -> exists k', (k', v) ∈ d.
Proof.
  induction d as [|[k0 v0] d IH]; [done|]. unfold dict_get; fold dict_get.
  destruct (key_eqb k0 k).
  - intros [= ->]. exists k0. apply list_elem_of_here.
  - intros (k' & Hk')%IH. exists k'. by apply list_elem_of_further.
Qed.

(** X13 [update_device], lines 141-148: an update in which some key's last
    incoming value is a text of [MAX_DEVICE_SIZE_BYTES] characters or more
    is never accepted, whatever the store holds. *)
Theorem huge_text_is_never_accepted now fs_ok mac sd st incoming k s :
  status_attributes sd = Some incoming ->
  dict_last k incoming = Some (PyStr s) ->
  MAX_DEVICE_SIZE_BYTES <= str_len s ->
  (update_device now fs_ok mac sd st).1 <> Ret true.
Proof.
  intros Hinc Hlast Hlen Hr.
  destruct (update_device now fs_ok mac sd st) as [r st'] eqn:E. simpl in Hr. subst r.
  destruct (update_device_accepted _ _ _ _ _ _ E) as (caps & _ & _ & Hfit & _).
  destruct Hfit as [Hfit|Hnone]; [|congruence].
  assert (Hget : dict_get k (merged_attributes (current_device now (upper mac) st) sd)
                 = Some (PyStr s)).
  { unfold merged_attributes. by rewrite Hinc, dict_get_update, Hlast. }
  destruct (dict_get_elem _ _ _ Hget) as [k' Hin].
  pose proof (json_size_entry _ _ _ Hin) as Hsize.
  change (json_dumps (PyStr s)) with (dquote +:+ escape s +:+ dquote) in Hsize.
  rewrite !str_len_app in Hsize. pose proof (str_len_escape s).
  change (str_len dquote) with 1 in Hsize. lia.
Qed.

Lemma huge_text_is_never_accepted_witness :
  str_len text_1MiB = MAX_DEVICE_SIZE_BYTES
  /\ (update_device 1 true "aa:bb" oversize_status empty_storage).1 <> Ret true.
Proof.
  assert (Hlen : str_len text_1MiB = MAX_DEVICE_SIZE_BYTES) by (vm_compute; reflexivity).
  split; [exact Hlen|].
  refine (huge_text_is_never_accepted 1 true "aa:bb" oversize_status empty_storage
            [(KStr "blob", PyStr text_1MiB)] (KStr "blob") text_1MiB _ _ _).
  - reflexivity.
  - reflexivity.
  - rewrite Hlen. reflexivity.
Defined.

(** ** The listener's counters *)

Lemma update_device_grows now fs_ok mac sd st :
  size (_devices (update_device now fs_ok mac sd st).2) = size (_devices st)
  \/ (update_device now fs_ok mac sd st).1 = Ret true
     /\ size (_devices (update_device now fs_ok mac sd st).2) = S (size (_devices st)).
Proof.
  pose proof (update_device_outcome now fs_ok mac sd st) as O.
  destruct (update_device now fs_ok mac sd st) as [r st'].
  inversion O; subst; simpl; try (by left).
  - left. unfold written_through.
    destruct (_devices st !! upper mac) eqn:E; [simpl|done].
    by rewrite map_size_insert, E.
  - left. unfold written_through.
    destruct (_devices st !! upper mac) eqn:E; [simpl|done].
    by rewrite map_size_insert, E.
  - match goal with m := <[_ := _]> _ |- _ => subst m end.
    rewrite map_size_insert.
    destruct (_devices st !! upper mac); [by left|by right].
Qed.

Lemma process_mqtt_message_grows json_loads t_parse t_update fs_ok topic payload st :
  size (_devices (process_mqtt_message json_loads t_parse t_update fs_ok topic payload
                    st).2) = size (_devices st)
  \/ (process_mqtt_message json_loads t_parse t_update fs_ok topic payload st).1 = Ret true
     /\ size (_devices (process_mqtt_message json_loads t_parse t_update fs_ok topic
                          payload st).2) = S (size (_devices st)).
Proof.
  destruct (process_mqtt_message json_loads t_parse t_update fs_ok topic payload st)
    as [r st'] eqn:E.
  simpl. revert E. unfold process_mqtt_message.
  destruct (Nat.ltb_spec (length (split "/" topic)) 3) as [Hlt|Hge];
    [intros [= <- <-]; by left|].
  destruct (String.eqb_spec (nth 0 (split "/" topic) "") "wifielement") as [Hns|Hns];
    [|intros [= <- <-]; by left].
  destruct (String.eqb_spec (nth 2 (split "/" topic) "") "status") as [Hty|Hty];
    [|intros [= <- <-]; by left].
  cbn [negb orb]. unfold try_except at 1. unfold bind at 1.
  pose proof (preserves_parse_status_message json_loads
                (fun m => size m = size (_devices st)) t_parse payload st eq_refl) as Hp.
  destruct (parse_status_message json_loads t_parse payload st) as [[[parsed|]|e] st1]
    eqn:Hparse.
  - pose proof (parse_status_message_some _ _ _ _ _ _ Hparse) as ->.
    destruct (Nat.ltb_spec (length (default [] (status_attributes parsed))) 5) as [Hn|Hn];
      [intros [= <- <-]; by left|].
    pose proof (update_device_grows t_update fs_ok (nth 1 (split "/" topic) "") parsed st)
      as H.
    destruct (update_device t_update fs_ok (nth 1 (split "/" topic) "") parsed st)
      as [[b|e] st2]; simpl in H; intros [= <- <-]; simpl.
    + destruct H as [H|[[= ->] H]]; [by left|by right].
    + destruct H as [H|[[= ] _]]. by left.
  - intros [= <- <-]. by left.
  - intros [= <- <-]. by left.
Qed.

Lemma _on_message_counts json_loads seconds (now : seconds) t_parse t_update fs_ok
    topic payload self :
  let self' := _on_message json_loads seconds now t_parse t_update fs_ok topic payload self in
  messages_received (listener_stats self') = messages_received (listener_stats self) + 1
  /\ connection_attempts (listener_stats self') = connection_attempts (listener_stats self)
  /\ last_message (listener_stats self') = Some now
  /\ (messages_processed (listener_stats self') = messages_processed (listener_stats self)
      /\ size (_devices (listener_storage self')) = size (_devices (listener_storage self))
      \/ messages_processed (listener_stats self')
         = messages_processed (listener_stats self) + 1
         /\ (size (_devices (listener_storage self'))
             <= S (size (_devices (listener_storage self))))%nat).
Proof.
  unfold _on_message.
  pose proof (process_mqtt_message_grows json_loads t_parse t_update fs_ok topic payload
                (listener_storage self)) as H.
  destruct (process_mqtt_message json_loads t_parse t_update fs_ok topic payload
              (listener_storage self)) as [[[|]|e] st]; simpl in *.
  - repeat split. right. split; [done|]. destruct H as [->|[_ ->]]; lia.
  - repeat split. left. split; [done|]. by destruct H as [H|[H _]].
  - repeat split. left. split; [done|]. by destruct H as [H|[H _]].
Qed.

(** X14 [_on_message] of [mqtt_listener.py], lines 130-147: after any
    sequence of messages the listener has counted every one of them as
    received, the count of processed messages has grown by at most that
    number, and the store holds at most one more device for each message
    counted as processed. *)
Theorem listener_counts_every_message json_loads seconds (ms : list (delivery seconds))
    (self : SengledMQTTListener seconds) :
  let self' := deliver_all json_loads seconds ms self in
  let processed :=
    messages_processed (listener_stats self') - messages_processed (listener_stats self) in
  messages_received (listener_stats self')
  = messages_received (listener_stats self) + Z.of_nat (length ms)
  /\ 0 <= processed <= Z.of_nat (length ms)
  /\ Z.of_nat (size (_devices (listener_storage self')))
     <= Z.of_nat (size (_devices (listener_storage self))) + processed.
Proof.
  unfold deliver_all. revert self.
  induction ms as [|m ms IH]; intros self; cbv zeta; [simpl; lia|].
  simpl foldl. specialize (IH (deliver json_loads seconds self m)). cbv zeta in IH.
  destruct IH as (Hr & Hp & Hs).
  pose proof (_on_message_counts json_loads seconds (delivery_now _ m)
                (delivery_t_parse _ m) (delivery_t_update _ m) (delivery_fs_ok _ m)
                (delivery_topic _ m) (delivery_payload _ m) self) as H.
  cbv zeta in H. fold (deliver json_loads seconds self m) in H.
  destruct H as (Hr1 & _ & _ & H1).
  rewrite length_cons, Nat2Z.inj_succ.
  destruct H1 as [[Hp1 Hs1]|[Hp1 Hs1]]; lia.
Qed.

(** ** Records the parser cannot file *)

Lemma parse_items_unhashable items d mac pd st :
  PyDict d ∈ items ->
  truthy (get_or_none "type" d) = true ->
  is_none (get_or_none "value" d) = false ->
  as_key (get_or_none "type" d) = None ->
  parse_items items mac pd st = (Raise TypeError, st).
Proof.
  intros Hin Ht Hv Hk. revert mac pd.
  induction items as [|item items IH]; intros mac pd; [by apply elem_of_nil in Hin|].
  apply elem_of_cons in Hin as [<-|Hin].
  - simpl. rewrite Ht, Hv. simpl. unfold setitem, bind. by rewrite Hk.
  - specialize (IH Hin). clear Hin Ht Hv Hk. destruct item; simpl; try apply IH.
    destruct (truthy _ && negb _); [|apply IH].
    unfold setitem, bind. destruct (as_key _); simpl; [apply IH|done].
Qed.

(** X15 [parse_status_message], lines 86-109: one record whose [type] is
    truthy and unhashable (a non-empty list or dict) and whose [value] is
    not [None] makes the parser give up the whole message: it returns
    [None] and logs one warning, whatever the other records hold. *)
Theorem unhashable_type_discards_message json_loads now payload items d st :
  json_loads payload = Ret (PyList items) ->
  PyDict d ∈ items ->
  truthy (get_or_none "type" d) = true ->
  is_none (get_or_none "value" d) = false ->
  as_key (get_or_none "type" d) = None ->
  parse_status_message json_loads now payload st
  = (Ret None, with_log (WARNING, Failed_to_parse_status_message TypeError) st).
Proof.
  intros Hload Hin Ht Hv Hk.
  unfold parse_status_message, loads, try_except, bind. rewrite Hload. simpl.
  destruct items as [|item items]; [by apply elem_of_nil in Hin|].
  cbn -[parse_items].
  by rewrite (parse_items_unhashable _ _ _ _ _ Hin Ht Hv Hk).
Qed.

Lemma unhashable_type_discards_message_witness :
  parse_status_message (loads_only unhashable_document) 7 (json_dumps unhashable_document)
    empty_storage
  = (Ret None, with_log (WARNING, Failed_to_parse_status_message TypeError) empty_storage).
Proof.
  refine (unhashable_type_discards_message (loads_only unhashable_document) 7
            (json_dumps unhashable_document)
            [PyDict [(KStr "type", PyStr "switch"); (KStr "value", PyStr "1")];
             PyDict [(KStr "type", PyList [PyStr "x"]); (KStr "value", PyStr "2")]]
            [(KStr "type", PyList [PyStr "x"]); (KStr "value", PyStr "2")]
            empty_storage _ _ _ _ _).
  - vm_compute. reflexivity.
  - apply list_elem_of_further, list_elem_of_here.
  - reflexivity.
  - reflexivity.
  - reflexivity.
Defined.
